(** * A shallow embedding of [neural_net_gradiant_descent.py]

    The script defines a sigmoid multi-layer perceptron on top of numpy:
    two scalar activation functions, Xavier weight initialisation, a class
    [NeuralNetwork] with a forward pass, two methods left empty
    ([backpropagation], [gradient_descent]), a cost derivative and an
    epoch-based training driver.

    Modelling conventions.
    - Python [float] / numpy [float64] values are modelled by the real
      numbers [R]; rounding, overflow and [inf] are outside that model.  The
      one non-number the driver can print, [nan] (mean of an empty array),
      is kept as a separate constructor of [pyfloat].
    - Where rounding decides a property (the range of the sigmoid), the
      activation functions, the constructor and the forward pass are given
      a second time over binary64 ([sigmoid64], [feedforward64], ...), with
      numpy's [exp] as a parameter.
    - Python [int] values are modelled by [Z].
    - A numpy array of rank 2 is a record of its two dimensions and its
      elements in row-major order, as numpy stores them.
    - Methods are computations in a state-and-exception monad: a raised
      exception keeps the state reached so far, as Python does.
    - The process-wide generator [np.random] is a record of two oracles
      (the normal deviates and the raw integers it will deliver) and a
      cursor; every draw advances the cursor. *)

From Stdlib Require Import Floats.
From Stdlib Require Import Reals Lra Lia ZArith List Permutation.
From stdpp Require Import base list.
Import ListNotations.

(** ** Python runtime: exceptions and the state-and-exception monad *)

(** [TypeError] and [AttributeError] are what Python raises when [None] is
    used as a number, a sequence or an object. *)
Inductive exn : Type :=
  | ValueError
  | ZeroDivisionError
  | IndexError
  | TypeError
  | AttributeError.

Inductive result (A : Type) : Type :=
  | Ok (a : A)
  | Raise (e : exn).
Arguments Ok {A} a.
Arguments Raise {A} e.

(** A computation over a mutable state [S]: it ends with a value or with an
    exception, and in both cases with the state it has reached. *)
Definition M (S A : Type) : Type := S -> result A * S.

Definition ret {S A} (a : A) : M S A := fun s => (Ok a, s).

Definition raise {S A} (e : exn) : M S A := fun s => (Raise e, s).

Definition bind {S A B} (m : M S A) (k : A -> M S B) : M S B :=
  fun s =>
    match m s with
    | (Ok a, s') => k a s'
    | (Raise e, s') => (Raise e, s')
    end.

Notation "'let*' x ':=' m 'in' k" := (bind m (fun x => k))
  (at level 10, x pattern, m at level 100, k at level 200).
Notation "m '>>' k" := (bind m (fun _ => k))
  (at level 61, left associativity).

Definition gets {S A} (f : S -> A) : M S A := fun s => (Ok (f s), s).

Definition modify {S} (f : S -> S) : M S unit := fun s => (Ok tt, f s).

Definition lift_result {S A} (r : result A) : M S A := fun s => (r, s).

(** Runs a computation on a component of the state, selected by [proj] and
    written back by [upd]. *)
Definition zoom {S T A} (proj : S -> T) (upd : T -> S -> S) (m : M T A) : M S A :=
  fun s => let '(r, t) := m (proj s) in (r, upd t s).

(** [for x in l: body(x)], threading the loop-carried variables [acc]. *)
Fixpoint for_loop {S A B} (l : list A) (acc : B) (body : B -> A -> M S B) : M S B :=
  match l with
  | [] => ret acc
  | x :: l' => let* acc' := body acc x in for_loop l' acc' body
  end.

(** A list comprehension [[f(x) for x in l]], evaluated left to right. *)
Fixpoint comprehension {S A B} (f : A -> M S B) (l : list A) : M S (list B) :=
  match l with
  | [] => ret []
  | x :: l' => let* y := f x in let* ys := comprehension f l' in ret (y :: ys)
  end.

(** ** Python integers, [range] and slices *)

Local Open Scope Z_scope.

(** Number of elements of [range(start, stop, step)] for a non-zero step. *)
Definition range_length (start stop step : Z) : Z :=
  if 0 <? step
  then (if start <? stop then (stop - start - 1) / step + 1 else 0)
  else (if stop <? start then (start - stop - 1) / (- step) + 1 else 0).

(** [range(start, stop, step)]; a zero step raises [ValueError]. *)
Definition py_range (start stop step : Z) : result (list Z) :=
  if step =? 0 then Raise ValueError
  else Ok (map (fun i : nat => start + Z.of_nat i * step)
               (seq 0 (Z.to_nat (range_length start stop step)))).

(** Bound of a slice: a negative index counts from the end, and the result
    is clipped to the list. *)
Definition slice_bound (n i : Z) : Z :=
  if i <? 0 then Z.max (i + n) 0 else Z.min i n.

(** [l[lo:hi]] *)
Definition py_slice {A} (l : list A) (lo hi : Z) : list A :=
  let n := Z.of_nat (length l) in
  let a := slice_bound n lo in
  let b := slice_bound n hi in
  take (Z.to_nat (b - a)) (drop (Z.to_nat a) l).

(** [l[lo:]] *)
Definition py_slice_from {A} (l : list A) (lo : Z) : list A :=
  py_slice l lo (Z.of_nat (length l)).

(** [l[-1]] *)
Definition py_last {A} (l : list A) : result A :=
  match last l with
  | Some x => Ok x
  | None => Raise IndexError
  end.

Local Close Scope Z_scope.

(** ** numpy: arrays of rank 2 *)

Local Open Scope R_scope.

Record ndarray : Type := mk_ndarray {
  shape0 : nat;
  shape1 : nat;
  flat : list R
}.

(** The printed loss: a number, or [nan]. *)
Inductive pyfloat : Type :=
  | Finite (r : R)
  | NaN.

Definition Rsum (l : list R) : R := fold_right Rplus 0 l.

(** [x[i, j]] *)
Definition item (x : ndarray) (i j : nat) : R :=
  nth (i * shape1 x + j)%nat (flat x) 0.

(** The array of shape [(r, c)] whose element [(i, j)] is [f i j]. *)
Definition from_fn (r c : nat) (f : nat -> nat -> R) : ndarray :=
  mk_ndarray r c (flat_map (fun i => map (f i) (seq 0 c)) (seq 0 r)).

Definition np_zeros (r c : nat) : ndarray :=
  mk_ndarray r c (repeat 0 (r * c)).

(** An element-wise function of one array. *)
Definition np_map (f : R -> R) (x : ndarray) : ndarray :=
  mk_ndarray (shape0 x) (shape1 x) (map f (flat x)).

(** [np.dot(a, b)] for two arrays of rank 2. *)
Definition np_dot (a b : ndarray) : result ndarray :=
  if decide (shape1 a = shape0 b)
  then Ok (from_fn (shape0 a) (shape1 b)
             (fun i j => Rsum (map (fun k => item a i k * item b k j)
                                   (seq 0 (shape1 a)))))
  else Raise ValueError.

(** Broadcasting of one dimension: equal lengths, or one of them is 1. *)
Definition broadcast_dim (m n : nat) : option nat :=
  if decide (m = n) then Some m
  else if decide (m = 1%nat) then Some n
  else if decide (n = 1%nat) then Some m
  else None.

(** Along a dimension of length 1 every index reads element 0. *)
Definition broadcast_index (dim i : nat) : nat :=
  if decide (dim = 1%nat) then 0%nat else i.

(** An element-wise binary operator with broadcasting. *)
Definition broadcast2 (op : R -> R -> R) (x y : ndarray) : result ndarray :=
  match broadcast_dim (shape0 x) (shape0 y), broadcast_dim (shape1 x) (shape1 y) with
  | Some r, Some c =>
      Ok (from_fn r c (fun i j =>
            op (item x (broadcast_index (shape0 x) i) (broadcast_index (shape1 x) j))
               (item y (broadcast_index (shape0 y) i) (broadcast_index (shape1 y) j))))
  | _, _ => Raise ValueError
  end.

Definition np_add : ndarray -> ndarray -> result ndarray := broadcast2 Rplus.
Definition np_subtract : ndarray -> ndarray -> result ndarray := broadcast2 Rminus.

Definition same_shape (x y : ndarray) : bool :=
  bool_decide (shape0 x = shape0 y) && bool_decide (shape1 x = shape1 y).

(** [np.mean] of a list of arrays: the arrays are stacked, which needs one
    common shape, and the mean of no element at all is [nan]. *)
Definition np_mean (xs : list ndarray) : result pyfloat :=
  match xs with
  | [] => Ok NaN
  | x :: rest =>
      if forallb (same_shape x) rest
      then let elems := flat_map flat xs in
           match elems with
           | [] => Ok NaN
           | _ :: _ => Ok (Finite (Rsum elems / INR (length elems)))
           end
      else Raise ValueError
  end.

(** ** numpy: the process-wide random generator *)

Record RandomState : Type := mk_RandomState {
  normal_oracle : nat -> R;
  integer_oracle : nat -> nat;
  cursor : nat
}.

Definition advance (g : RandomState) : RandomState :=
  mk_RandomState (normal_oracle g) (integer_oracle g) (S (cursor g)).

Definition standard_normal : M RandomState R :=
  fun g => (Ok (normal_oracle g (cursor g)), advance g).

(** A uniform integer of the closed interval [[0, max]]. *)
Definition random_interval (max : nat) : M RandomState nat :=
  fun g => (Ok (integer_oracle g (cursor g) mod S max)%nat, advance g).

(** [np.random.randn(d0, d1)]; a negative dimension raises [ValueError]. *)
Definition randn (d0 d1 : Z) : M RandomState ndarray :=
  if ((d0 <? 0) || (d1 <? 0))%Z then raise ValueError
  else
    let r := Z.to_nat d0 in
    let c := Z.to_nat d1 in
    let* xs := comprehension (fun _ : nat => standard_normal) (seq 0 (r * c)) in
    ret (mk_ndarray r c xs).

(** [x[i], x[j] = x[j], x[i]] *)
Definition swap {A} (x : list A) (i j : nat) : list A :=
  match x !! i, x !! j with
  | Some xi, Some xj => <[j := xi]> (<[i := xj]> x)
  | _, _ => x
  end.

(** [np.random.shuffle(x)] on a list: for [i] from [len(x) - 1] down to 1,
    exchange [x[i]] with [x[j]] for a random [j] of [[0, i]]. *)
Definition shuffle {A} (x : list A) : M RandomState (list A) :=
  for_loop (rev (seq 1 (length x - 1))) x
    (fun x i => let* j := random_interval i in ret (swap x i j)).

(** ** The script *)

Definition sigmoid (x : R) : R := 1 / (1 + exp (- x)).


(** [sigmoid] applied to an array: numpy applies each operation of its body
    element by element. *)
Definition sigmoid_array (z : ndarray) : ndarray := np_map sigmoid z.

Definition initialize_weights_xavier (n_in n_out : Z) : M RandomState ndarray :=
  let* w := randn n_out n_in in
  if (n_in =? 0)%Z then raise ZeroDivisionError
  else ret (np_map (fun v => v * sqrt (1 / IZR n_in)) w).

Record NeuralNetwork : Type := mk_NeuralNetwork {
  weights : list ndarray;
  biases : list ndarray;
  velocity_b : list ndarray;
  velocity_w : list ndarray
}.

(** [NeuralNetwork.__init__] *)
Definition NeuralNetwork_init (layer_sizes : list Z) : M RandomState NeuralNetwork :=
  let* ws := comprehension (fun '(x, y) => initialize_weights_xavier x y)
               (zip (py_slice layer_sizes 0 (-1)) (py_slice_from layer_sizes 1)) in
  let* bs := comprehension (fun y => randn y 1) (py_slice_from layer_sizes 1) in
  ret {| weights := ws;
         biases := bs;
         velocity_b := map (fun b => np_zeros (shape0 b) (shape1 b)) bs;
         velocity_w := map (fun w => np_zeros (shape0 w) (shape1 w)) ws |}.

Definition feedforward (a : ndarray) : M NeuralNetwork ndarray :=
  let* bs := gets biases in
  let* ws := gets weights in
  let* activations :=
    for_loop (zip bs ws) [a]
      (fun activations '(b, w) =>
         let* prev := lift_result (py_last activations) in
         let* wa := lift_result (np_dot w prev) in
         let* z := lift_result (np_add wa b) in
         ret (activations ++ [sigmoid_array z])) in
  lift_result (py_last activations).

(** The body is a docstring and a comment: the method returns [None]. *)
Definition backpropagation (x y : ndarray) : M NeuralNetwork unit :=
  ret tt.

(** The body is a docstring and a comment: the method returns [None]. *)
Definition gradient_descent (mini_batch : list (ndarray * ndarray)) (eta mu : R)
  : M NeuralNetwork unit :=
  ret tt.

Definition cost_derivative (output_activations y : ndarray) : M NeuralNetwork ndarray :=
  lift_result (np_subtract output_activations y).

(** What [train] can reach: the network, the caller's list object bound to
    [training_data] (shuffled in place), the random generator and the lines
    printed so far (epoch and loss). *)
Record world : Type := mk_world {
  self : NeuralNetwork;
  training_data : list (ndarray * ndarray);
  np_random : RandomState;
  stdout : list (Z * pyfloat)
}.

Definition on_self {A} : M NeuralNetwork A -> M world A :=
  zoom self (fun n w => mk_world n (training_data w) (np_random w) (stdout w)).

Definition on_random {A} : M RandomState A -> M world A :=
  zoom np_random (fun g w => mk_world (self w) (training_data w) g (stdout w)).

Definition set_training_data (l : list (ndarray * ndarray)) : M world unit :=
  modify (fun w => mk_world (self w) l (np_random w) (stdout w)).

Definition print (j : Z) (loss : pyfloat) : M world unit :=
  modify (fun w => mk_world (self w) (training_data w) (np_random w) (stdout w ++ [(j, loss)])).

(** [np.random.shuffle(training_data)]: the list object is updated in place. *)
Definition shuffle_training_data : M world unit :=
  let* l := gets training_data in
  let* l' := on_random (shuffle l) in
  set_training_data l'.

(** The list comprehension that cuts [training_data] into mini-batches. *)
Definition mini_batches_of (l : list (ndarray * ndarray)) (n mini_batch_size : Z)
  : result (list (list (ndarray * ndarray))) :=
  match py_range 0 n mini_batch_size with
  | Ok ks => Ok (map (fun k => py_slice l k (k + mini_batch_size)%Z) ks)
  | Raise e => Raise e
  end.

(** One iteration of the loop over the epochs; the loop-carried variable is
    [learning_rate]. *)
Definition epoch (n mini_batch_size : Z) (decay : R) (learning_rate : R) (j : Z)
  : M world R :=
  shuffle_training_data >>
  let* l := gets training_data in
  let* mini_batches := lift_result (mini_batches_of l n mini_batch_size) in
  let* _ := for_loop mini_batches tt
              (fun _ mini_batch => on_self (gradient_descent mini_batch learning_rate (9 / 10))) in
  let learning_rate := learning_rate * decay in
  (if (j mod 100 =? 0)%Z
   then
     let* l := gets training_data in
     let* losses := comprehension
                      (fun '(x, y) =>
                         let* out := on_self (feedforward x) in
                         let* d := on_self (cost_derivative out y) in
                         ret (np_map (fun v => v ^ 2) d)) l in
     let* loss := lift_result (np_mean losses) in
     print j loss
   else ret tt) >>
  ret learning_rate.

(** The loop of [train]; it yields the final value of [learning_rate]. *)
Definition train_loop (epochs mini_batch_size : Z) (learning_rate decay : R) : M world R :=
  let* n := gets (fun w => Z.of_nat (length (training_data w))) in
  let* js := lift_result (py_range 0 epochs 1) in
  for_loop js learning_rate (epoch n mini_batch_size decay).

Definition train (epochs mini_batch_size : Z) (learning_rate decay : R) : M world unit :=
  train_loop epochs mini_batch_size learning_rate decay >> ret tt.

(** ** Example data: the XOR table of [main] *)

Definition column (l : list R) : ndarray := mk_ndarray (length l) 1 l.

Definition xor_data : list (ndarray * ndarray) :=
  [ (column [0; 0], column [0]);
    (column [0; 1], column [1]);
    (column [1; 0], column [1]);
    (column [1; 1], column [0]) ].

(** A generator that always delivers 0 as a deviate and 1 as an integer. *)
Definition constant_generator : RandomState :=
  mk_RandomState (fun _ => 0) (fun _ => 1%nat) 0.

(** The network [NeuralNetwork([2, 2, 1])] that [constant_generator]
    produces: every deviate is 0, so all parameters are 0. *)
Definition xor_network : NeuralNetwork :=
  let w1 := 0 * sqrt (1 / 2) in
  {| weights := [mk_ndarray 2 2 [w1; w1; w1; w1]; mk_ndarray 1 2 [w1; w1]];
     biases := [mk_ndarray 2 1 [0; 0]; mk_ndarray 1 1 [0]];
     velocity_b := [mk_ndarray 2 1 [0; 0]; mk_ndarray 1 1 [0]];
     velocity_w := [mk_ndarray 2 2 [0; 0; 0; 0]; mk_ndarray 1 2 [0; 0]] |}.

Definition xor_world : world :=
  mk_world xor_network xor_data (mk_RandomState (fun _ => 0) (fun _ => 1%nat) 9) [].

(** A list whose only example has three inputs, one more than
    [xor_network] takes. *)
Definition misshapen_world : world :=
  mk_world xor_network [(column [0; 0; 0], column [0])]
           (mk_RandomState (fun _ => 0) (fun _ => 1%nat) 9) [].

(** ** Shapes, and the invariant of a network *)

Definition has_shape (x : ndarray) (r c : nat) : Prop :=
  shape0 x = r /\ shape1 x = c /\ length (flat x) = (r * c)%nat.

Definition all_zero (x : ndarray) : Prop := Forall (fun v => v = 0) (flat x).

(** [sizes] lists the input size and then the output size of every layer. *)
Definition shape_inv (sizes : list nat) (nn : NeuralNetwork) : Prop :=
  Forall2 (fun w '(n_in, n_out) => has_shape w n_out n_in)
          (weights nn) (zip sizes (tail sizes)) /\
  Forall2 (fun b n_out => has_shape b n_out 1) (biases nn) (tail sizes) /\
  Forall2 (fun v w => has_shape v (shape0 w) (shape1 w)) (velocity_w nn) (weights nn) /\
  Forall2 (fun v b => has_shape v (shape0 b) (shape1 b)) (velocity_b nn) (biases nn).

Definition zero_velocity (nn : NeuralNetwork) : Prop :=
  Forall all_zero (velocity_w nn) /\ Forall all_zero (velocity_b nn).

Definition input_size (sizes : list nat) : nat := hd 0%nat sizes.
Definition output_size (sizes : list nat) : nat := default 0%nat (last sizes).

(** Every example is a column of the input size paired with a column of the
    output size. *)
Definition data_fits (sizes : list nat) (l : list (ndarray * ndarray)) : Prop :=
  Forall (fun '(x, y) => has_shape x (input_size sizes) 1 /\
                         has_shape y (output_size sizes) 1) l.

Definition positive_sizes (layer_sizes : list Z) : Prop :=
  Forall (fun n => (0 < n)%Z) layer_sizes.

(** A valid layer-size list: an input layer, at least one more layer, and
    positive sizes throughout. *)
Definition valid_layer_sizes (layer_sizes : list Z) : Prop :=
  (2 <= length layer_sizes)%nat /\ positive_sizes layer_sizes.

(** ** The forward pass as the specification words it

    One layer: element [i] of the output column is the squashing function of
    row [i] of the weight matrix times the previous activation, plus
    element [i] of the bias. *)
Definition affine_sigmoid_spec (w b prev : ndarray) : ndarray :=
  from_fn (shape0 w) 1
    (fun i _ => sigmoid (Rsum (map (fun k => item w i k * item prev k 0)
                                   (seq 0 (shape1 w)))
                         + item b i 0)).

(** Layer by layer, from the input to the last layer. *)
Fixpoint forward_spec (ws bs : list ndarray) (a : ndarray) : ndarray :=
  match ws, bs with
  | w :: ws', b :: bs' => forward_spec ws' bs' (affine_sigmoid_spec w b a)
  | _, _ => a
  end.

(** ** The calls of [gradient_descent] that [train] makes

    [gradient_descent] does nothing, so the state after [train] does not
    show which mini-batches it was called on.  To state it, the driver is
    given a second time over a state with one more component, the list of
    the calls of [gradient_descent] made so far with their arguments; no
    computation reads that list, and forgetting it gives [train] back
    (lemma [train_traced_erase]). *)












(** ** The activation functions and the forward pass in binary64

    The same expressions over IEEE 754 binary64.  numpy's [exp] is not part
    of the script: it is the parameter [np_exp]. *)























(** ** The driver [main] *)

(** A printed line: [Epoch {j}, Loss: {loss}] from [train], or
    [Input: {x.flatten()} Output: {out.flatten()} Target: {y.flatten()}]
    from [main]. *)
Inductive line : Type :=
  | EpochLoss (j : Z) (loss : pyfloat)
  | InputOutputTarget (x out y : list R).

(** What a run of the script can reach besides its local variables: the
    random generator and the lines printed so far. *)
Record process : Type := mk_process {
  generator : RandomState;
  lines : list line
}.

Definition print_line (l : line) : M process unit :=
  modify (fun p => mk_process (generator p) (lines p ++ [l])).

(** A call of a method on the network held in a local variable; the network
    after the call is returned with the value. *)
Definition call_method {A} (m : M NeuralNetwork A) (nn : NeuralNetwork)
  : M process (A * NeuralNetwork) :=
  fun p =>
    match m nn with
    | (Ok a, nn') => (Ok (a, nn'), p)
    | (Raise e, _) => (Raise e, p)
    end.

(** [nn.train(training_data, ...)] from [main]: the world of [train] is made
    of the two local objects and the generator, and the lines that [train]
    prints go to the output of the process.  The objects after the call are
    returned. *)
Definition call_train (nn : NeuralNetwork) (l : list (ndarray * ndarray))
           (epochs mini_batch_size : Z) (learning_rate decay : R)
  : M process (NeuralNetwork * list (ndarray * ndarray)) :=
  fun p =>
    let '(r, w') := train epochs mini_batch_size learning_rate decay
                      (mk_world nn l (generator p) []) in
    let p' := mk_process (np_random w')
                (lines p ++ map (fun '(j, loss) => EpochLoss j loss) (stdout w')) in
    match r with
    | Ok _ => (Ok (self w', training_data w'), p')
    | Raise e => (Raise e, p')
    end.

Definition main : M process unit :=
  let training_data := xor_data in
  let* nn := zoom generator (fun g p => mk_process g (lines p))
               (NeuralNetwork_init [2; 2; 1]%Z) in
  let* (nn, training_data) :=
    call_train nn training_data 20000 4 (1 / 10) (9999 / 10000) in
  let* _ := for_loop training_data nn
              (fun nn '(x, y) =>
                 let* (out, nn) := call_method (feedforward x) nn in
                 print_line (InputOutputTarget (flat x) (flat out) (flat y)) >>
                 ret nn) in
  ret tt.

(** ** Vocabulary for the further properties *)

(** The pairs (input size, output size) of the layers of a layer-size list. *)
Definition layer_dims (layer_sizes : list Z) : list (Z * Z) :=
  zip layer_sizes (tail layer_sizes).

(** Every layer has a positive input size and a non-negative output size. *)
Definition constructible (layer_sizes : list Z) : Prop :=
  Forall (fun '(n_in, n_out) => (0 < n_in)%Z /\ (0 <= n_out)%Z) (layer_dims layer_sizes).

(** Column [j] of an array, as a column array. *)
Definition column_of (x : ndarray) (j : nat) : ndarray :=
  from_fn (shape0 x) 1 (fun i _ => item x i j).

(** One layer, and all layers, applied to a matrix whose columns are
    inputs: element [(i, j)] combines row [i] of the weights with column [j]
    of the matrix. *)
Definition affine_sigmoid_batch (w b prev : ndarray) : ndarray :=
  from_fn (shape0 w) (shape1 prev)
    (fun i j => sigmoid (Rsum (map (fun k => item w i k * item prev k j)
                                   (seq 0 (shape1 w)))
                         + item b i 0)).

Fixpoint forward_batch (ws bs : list ndarray) (a : ndarray) : ndarray :=
  match ws, bs with
  | w :: ws', b :: bs' => forward_batch ws' bs' (affine_sigmoid_batch w b a)
  | _, _ => a
  end.

(** Two lengths that numpy can broadcast against each other. *)
Definition compatible (m n : nat) : Prop := m = n \/ m = 1%nat \/ n = 1%nat.

(** The squared errors of a network on one example, and the mean of the
    squared errors over a list of examples ([nan] when there is none). *)
Definition squared_errors (nn : NeuralNetwork) (example : ndarray * ndarray) : list R :=
  map (fun v => v ^ 2)
      (zip_with Rminus (flat (forward_spec (weights nn) (biases nn) (fst example)))
                (flat (snd example))).

Definition mean_of (es : list R) : pyfloat :=
  match es with
  | [] => NaN
  | _ :: _ => Finite (Rsum es / INR (length es))
  end.

Definition mean_squared_loss (nn : NeuralNetwork) (l : list (ndarray * ndarray)) : pyfloat :=
  mean_of (flat_map (squared_errors nn) l).

(** [k] shuffles in a row, each of the list that the one before left. *)
Fixpoint shuffles {A} (k : nat) (l : list A) (g : RandomState) : list A * RandomState :=
  match k with
  | O => (l, g)
  | S k' =>
      match shuffle l g with
      | (Ok l', g') => shuffles k' l' g'
      | (Raise _, g') => (l, g')
      end
  end.

(** Two worlds with the same four components. *)
Definition same_world (w w' : world) : Prop :=
  self w' = self w /\ training_data w' = training_data w /\
  np_random w' = np_random w /\ stdout w' = stdout w.

(** The epochs of [range(epochs)] in which [train] prints the loss. *)
Definition logged_epochs (epochs : Z) : list Z :=
  filter (fun j => (j mod 100 = 0)%Z) (map Z.of_nat (seq 0 (Z.to_nat epochs))).

(** ** Reasoning about computations *)

(** [wp m Q s]: from [s], [m] returns normally with a value and a state that
    satisfy [Q]. *)
Definition wp {S A} (m : M S A) (Q : A -> S -> Prop) (s : S) : Prop :=
  match m s with
  | (Ok a, s') => Q a s'
  | (Raise _, _) => False
  end.

(** [wpe m Q E s]: from [s], [m] either returns with a value and a state
    that satisfy [Q], or raises an exception that satisfies [E]. *)
Definition wpe {S A} (m : M S A) (Q : A -> S -> Prop) (E : exn -> Prop) (s : S) : Prop :=
  match m s with
  | (Ok a, s') => Q a s'
  | (Raise e, _) => E e
  end.

(** [keeps R m]: whether [m] returns or raises, the state it ends with is
    related by [R] to the state it started from. *)
Definition keeps {S A} (R : S -> S -> Prop) (m : M S A) : Prop :=
  forall s, R s (snd (m s)).

(** What [train] leaves alone: the network is the same and the list holds
    the same examples. *)
Definition train_frame (w w' : world) : Prop :=
  self w' = self w /\ Permutation (training_data w) (training_data w').

(** ** Rules for [wp] and [keeps] *)

Section Rules.
Context {S : Type}.

Lemma wp_elim {A} (m : M S A) Q s :
  wp m Q s -> exists a s', m s = (Ok a, s') /\ Q a s'.
Proof.
  unfold wp. destruct (m s) as [[a|e] s']; [eauto | tauto].
Qed.

Lemma wp_intro {A} (m : M S A) (Q : A -> S -> Prop) s a s' :
  m s = (Ok a, s') -> Q a s' -> wp m Q s.
Proof. unfold wp. intros ->. auto. Qed.

Lemma wp_mono {A} (m : M S A) (Q Q' : A -> S -> Prop) s :
  wp m Q s -> (forall a s', Q a s' -> Q' a s') -> wp m Q' s.
Proof.
  unfold wp. destruct (m s) as [[a|e] s']; auto.
Qed.

Lemma wp_ret {A} (a : A) (Q : A -> S -> Prop) s : Q a s -> wp (ret a) Q s.
Proof. auto. Qed.

Lemma wp_bind {A B} (m : M S A) (k : A -> M S B) Q s :
  wp m (fun a s' => wp (k a) Q s') s -> wp (bind m k) Q s.
Proof.
  unfold wp, bind. destruct (m s) as [[a|e] s']; auto.
Qed.

Lemma wp_gets {A} (f : S -> A) (Q : A -> S -> Prop) s : Q (f s) s -> wp (gets f) Q s.
Proof. auto. Qed.

Lemma wp_modify (f : S -> S) (Q : unit -> S -> Prop) s : Q tt (f s) -> wp (modify f) Q s.
Proof. auto. Qed.

Lemma wp_lift {A} (r : result A) (Q : A -> S -> Prop) a s :
  r = Ok a -> Q a s -> wp (lift_result r) Q s.
Proof. intros ->. auto. Qed.

Lemma wp_zoom {T A} (proj : S -> T) (upd : T -> S -> S) (m : M T A) Q s :
  wp m (fun a t => Q a (upd t s)) (proj s) -> wp (zoom proj upd m) Q s.
Proof.
  unfold wp, zoom. destruct (m (proj s)) as [[a|e] t]; auto.
Qed.

(** A loop with an invariant indexed by the number of elements done. *)
Lemma wp_for_loop {A B} (body : B -> A -> M S B) (I : nat -> B -> S -> Prop) :
  forall (l : list A) acc s,
    I 0%nat acc s ->
    (forall k x acc s, l !! k = Some x -> I k acc s -> wp (body acc x) (I (Datatypes.S k)) s) ->
    wp (for_loop l acc body) (I (length l)) s.
Proof.
  intros l. revert I. induction l as [|x l IH]; intros I acc s H0 Hstep.
  - exact H0.
  - cbn [for_loop length]. apply wp_bind.
    eapply wp_mono; [apply (Hstep 0%nat x acc s eq_refl H0)|].
    intros acc' s' H1. cbv beta.
    apply (IH (fun k => I (Datatypes.S k))); [exact H1|].
    intros k y acc2 s2 Hk HI. apply (Hstep (Datatypes.S k)); assumption.
Qed.

Lemma wp_comprehension {A B} (f : A -> M S B) (P : A -> B -> Prop)
      (I : nat -> S -> Prop) :
  forall (l : list A) s,
    I 0%nat s ->
    (forall k x s, l !! k = Some x -> I k s ->
                   wp (f x) (fun y s' => P x y /\ I (Datatypes.S k) s') s) ->
    wp (comprehension f l) (fun ys s' => Forall2 P l ys /\ I (length l) s') s.
Proof.
  intros l. revert I. induction l as [|x l IH]; intros I s H0 Hstep.
  - split; [constructor | exact H0].
  - cbn [comprehension length]. apply wp_bind.
    eapply wp_mono; [apply (Hstep 0%nat x s eq_refl H0)|].
    intros y s' [HP H1]. cbv beta. apply wp_bind.
    eapply wp_mono.
    + apply (IH (fun k => I (Datatypes.S k))); [exact H1|].
      intros k z s2 Hk HI. apply (Hstep (Datatypes.S k)); assumption.
    + intros ys s2 [HF HI]. apply wp_ret. split; [constructor; assumption | exact HI].
Qed.

Lemma wpe_of_wp {A} (m : M S A) Q E s : wp m Q s -> wpe m Q E s.
Proof. unfold wp, wpe. destruct (m s) as [[a|e] s']; tauto. Qed.

Lemma wpe_mono {A} (m : M S A) (Q Q' : A -> S -> Prop) E s :
  wpe m Q E s -> (forall a s', Q a s' -> Q' a s') -> wpe m Q' E s.
Proof. unfold wpe. destruct (m s) as [[a|e] s']; auto. Qed.

Lemma wpe_ret {A} (a : A) (Q : A -> S -> Prop) E s : Q a s -> wpe (ret a) Q E s.
Proof. auto. Qed.

Lemma wpe_bind {A B} (m : M S A) (k : A -> M S B) Q E s :
  wpe m (fun a s' => wpe (k a) Q E s') E s -> wpe (bind m k) Q E s.
Proof. unfold wpe, bind. destruct (m s) as [[a|e] s']; auto. Qed.

Lemma wpe_gets {A} (f : S -> A) (Q : A -> S -> Prop) E s : Q (f s) s -> wpe (gets f) Q E s.
Proof. auto. Qed.

Lemma wpe_lift {A} (r : result A) (Q : A -> S -> Prop) (E : exn -> Prop) s :
  match r with Ok a => Q a s | Raise e => E e end -> wpe (lift_result r) Q E s.
Proof. unfold wpe, lift_result. auto. Qed.

Lemma wpe_zoom {T A} (proj : S -> T) (upd : T -> S -> S) (m : M T A) Q E s :
  wpe m (fun a t => Q a (upd t s)) E (proj s) -> wpe (zoom proj upd m) Q E s.
Proof. unfold wpe, zoom. destruct (m (proj s)) as [[a|e] t]; auto. Qed.

Lemma wpe_for_loop {A B} (body : B -> A -> M S B) (I : B -> S -> Prop) E :
  (forall acc x s, I acc s -> wpe (body acc x) I E s) ->
  forall (l : list A) acc s, I acc s -> wpe (for_loop l acc body) I E s.
Proof.
  intros Hstep l. induction l as [|x l IH]; intros acc s H0.
  - exact H0.
  - cbn [for_loop]. apply wpe_bind.
    eapply wpe_mono; [apply Hstep, H0|]. intros acc' s' H1. apply IH, H1.
Qed.

Lemma wpe_comprehension {A B} (f : A -> M S B) (I : S -> Prop) E :
  (forall x s, I s -> wpe (f x) (fun _ s' => I s') E s) ->
  forall (l : list A) s, I s -> wpe (comprehension f l) (fun _ s' => I s') E s.
Proof.
  intros Hstep l. induction l as [|x l IH]; intros s H0.
  - exact H0.
  - cbn [comprehension]. apply wpe_bind.
    eapply wpe_mono; [apply Hstep, H0|]. intros y s' H1. cbv beta.
    apply wpe_bind. eapply wpe_mono; [apply IH, H1|].
    intros ys s2 H2. apply wpe_ret, H2.
Qed.

(** When every exception is acceptable, only the continuation matters. *)
Lemma wpe_bind_value {A B} (m : M S A) (k : A -> M S B) Q s :
  (forall a s', wpe (k a) Q (fun _ => True) s') -> wpe (bind m k) Q (fun _ => True) s.
Proof. intros H. unfold wpe, bind. destruct (m s) as [[a|e] s']; [apply H | exact I]. Qed.

Context (R : S -> S -> Prop) `{!PreOrder R}.

Lemma keeps_ret {A} (a : A) : keeps R (ret a).
Proof. intros s. reflexivity. Qed.

Lemma keeps_raise {A} e : keeps R (@raise S A e).
Proof. intros s. reflexivity. Qed.

Lemma keeps_gets {A} (f : S -> A) : keeps R (gets f).
Proof. intros s. reflexivity. Qed.

Lemma keeps_lift {A} (r : result A) : keeps R (lift_result r).
Proof. intros s. reflexivity. Qed.

Lemma keeps_bind {A B} (m : M S A) (k : A -> M S B) :
  keeps R m -> (forall a, keeps R (k a)) -> keeps R (bind m k).
Proof.
  intros Hm Hk s. unfold bind. specialize (Hm s).
  destruct (m s) as [[a|e] s']; cbn [snd] in *; [|exact Hm].
  etransitivity; [exact Hm | apply Hk].
Qed.

Lemma keeps_for_loop {A B} (body : B -> A -> M S B) (l : list A) :
  (forall acc x, keeps R (body acc x)) -> forall acc, keeps R (for_loop l acc body).
Proof.
  intros Hb. induction l as [|x l IH]; intros acc; cbn [for_loop].
  - apply keeps_ret.
  - apply keeps_bind; [apply Hb | intros acc'; apply IH].
Qed.

Lemma keeps_comprehension {A B} (f : A -> M S B) (l : list A) :
  (forall x, keeps R (f x)) -> keeps R (comprehension f l).
Proof.
  intros Hf. induction l as [|x l IH]; cbn [comprehension].
  - apply keeps_ret.
  - apply keeps_bind; [apply Hf | intros y].
    apply keeps_bind; [exact IH | intros ys; apply keeps_ret].
Qed.

Lemma keeps_zoom {T A} (R' : T -> T -> Prop) (proj : S -> T) (upd : T -> S -> S)
      (m : M T A) :
  keeps R' m -> (forall s t, R' (proj s) t -> R s (upd t s)) ->
  keeps R (zoom proj upd m).
Proof.
  intros Hm Hupd s. unfold zoom. specialize (Hm (proj s)).
  destruct (m (proj s)) as [r t]; cbn [snd] in *. apply Hupd, Hm.
Qed.
End Rules.

(** ** The activation functions *)







(** ** Arrays *)

Lemma flat_map_rows_length (c : nat) (f : nat -> nat -> R) (r s : nat) :
  length (flat_map (fun i => map (f i) (seq 0 c)) (seq s r)) = (r * c)%nat.
Proof.
  revert s. induction r as [|r IH]; intros s; cbn [seq flat_map]; [reflexivity|].
  rewrite length_app, length_map, length_seq, IH. reflexivity.
Qed.

Lemma from_fn_length r c f : length (flat (from_fn r c f)) = (r * c)%nat.
Proof. apply flat_map_rows_length. Qed.

Lemma from_fn_has_shape r c f : has_shape (from_fn r c f) r c.
Proof. repeat split. apply from_fn_length. Qed.

Lemma flat_map_rows_nth (c : nat) (f : nat -> nat -> R) (r s i j : nat) :
  (i < r)%nat -> (j < c)%nat ->
  nth (i * c + j) (flat_map (fun i => map (f i) (seq 0 c)) (seq s r)) 0 = f (s + i)%nat j.
Proof.
  revert s i. induction r as [|r IH]; intros s i Hi Hj; [lia|].
  cbn [seq flat_map]. destruct i as [|i].
  - rewrite app_nth1 by (rewrite length_map, length_seq; lia).
    cbn [Nat.mul Nat.add]. rewrite (nth_indep _ 0 (f s 0%nat)) by (rewrite length_map, length_seq; lia).
    rewrite map_nth, seq_nth by lia. f_equal; lia.
  - rewrite app_nth2 by (rewrite length_map, length_seq; lia).
    rewrite length_map, length_seq.
    replace (Datatypes.S i * c + j - c)%nat with (i * c + j)%nat by lia.
    rewrite IH by lia. f_equal; lia.
Qed.

Lemma item_from_fn r c f i j :
  (i < r)%nat -> (j < c)%nat -> item (from_fn r c f) i j = f i j.
Proof.
  intros Hi Hj. unfold item, from_fn. cbn [shape1 flat].
  rewrite flat_map_rows_nth by assumption. reflexivity.
Qed.

Lemma flat_map_rows_ext (c : nat) (f g : nat -> nat -> R) (r s : nat) :
  (forall i j, (s <= i < s + r)%nat -> (j < c)%nat -> f i j = g i j) ->
  flat_map (fun i => map (f i) (seq 0 c)) (seq s r)
  = flat_map (fun i => map (g i) (seq 0 c)) (seq s r).
Proof.
  revert s. induction r as [|r IH]; intros s H; cbn [seq flat_map]; [reflexivity|].
  f_equal.
  - apply map_ext_in. intros j Hj%in_seq. apply H; lia.
  - apply IH. intros i j Hi Hj. apply H; lia.
Qed.

Lemma from_fn_ext r c f g :
  (forall i j, (i < r)%nat -> (j < c)%nat -> f i j = g i j) ->
  from_fn r c f = from_fn r c g.
Proof.
  intros H. unfold from_fn. f_equal. apply flat_map_rows_ext.
  intros i j Hi Hj. apply H; lia.
Qed.

Lemma np_map_from_fn h r c f :
  np_map h (from_fn r c f) = from_fn r c (fun i j => h (f i j)).
Proof.
  unfold np_map, from_fn. cbn [shape0 shape1 flat]. f_equal.
  assert (G : forall s, map h (flat_map (fun i => map (f i) (seq 0 c)) (seq s r))
                        = flat_map (fun i => map (fun j => h (f i j)) (seq 0 c)) (seq s r)).
  { induction r as [|r IH]; intros s; cbn [seq flat_map]; [reflexivity|].
    rewrite map_app, IH, map_map. reflexivity. }
  apply G.
Qed.


Lemma broadcast_dim_same n : broadcast_dim n n = Some n.
Proof. unfold broadcast_dim. destruct (decide (n = n)); congruence. Qed.

Lemma broadcast_index_lt dim i : (i < dim)%nat -> broadcast_index dim i = i.
Proof. unfold broadcast_index. destruct (decide (dim = 1%nat)); lia. Qed.

(** On two arrays of one shape, broadcasting is the plain element-wise
    operator. *)
Lemma broadcast2_same_shape op x y r c :
  has_shape x r c -> has_shape y r c ->
  broadcast2 op x y = Ok (from_fn r c (fun i j => op (item x i j) (item y i j))).
Proof.
  intros (Hx0 & Hx1 & _) (Hy0 & Hy1 & _). unfold broadcast2.
  rewrite Hx0, Hx1, Hy0, Hy1, !broadcast_dim_same. f_equal.
  apply from_fn_ext. intros i j Hi Hj.
  rewrite !broadcast_index_lt by assumption. reflexivity.
Qed.

(** One layer of the forward pass, as the code computes it, is the layer of
    the specification. *)
Lemma layer_refines w b prev m n :
  has_shape w m n -> has_shape b m 1 -> has_shape prev n 1 ->
  exists wa z,
    np_dot w prev = Ok wa /\ np_add wa b = Ok z /\
    sigmoid_array z = affine_sigmoid_spec w b prev.
Proof.
  intros Hw Hb Hp.
  pose proof Hw as (Hw0 & Hw1 & _). pose proof Hp as (Hp0 & Hp1 & _).
  unfold np_dot. destruct (decide (shape1 w = shape0 prev)) as [_|Hne]; [|congruence].
  rewrite Hw0, Hp1. eexists; eexists. split; [reflexivity|].
  unfold np_add. rewrite (broadcast2_same_shape Rplus _ b m 1);
    [|apply from_fn_has_shape | exact Hb].
  split; [reflexivity|].
  unfold sigmoid_array, affine_sigmoid_spec. rewrite np_map_from_fn, Hw0.
  apply from_fn_ext. intros i j Hi Hj.
  rewrite item_from_fn by assumption.
  assert (j = 0%nat) as -> by lia. reflexivity.
Qed.

Lemma affine_sigmoid_spec_shape w b prev : has_shape (affine_sigmoid_spec w b prev) (shape0 w) 1.
Proof. apply from_fn_has_shape. Qed.



(** ** The forward pass *)

Lemma last_cons_default {A} (d x : A) (l : list A) :
  default d (last (x :: l)) = default x (last l).
Proof.
  revert d x. induction l as [|y l IH]; intros d x; [reflexivity|].
  change (last (x :: y :: l)) with (last (y :: l)).
  rewrite (IH d y). symmetry. apply IH.
Qed.




Lemma forward_spec_shape sizes : forall n ws bs a,
  Forall2 (fun w '(n_in, n_out) => has_shape w n_out n_in) ws (zip (n :: sizes) sizes) ->
  Forall2 (fun b n_out => has_shape b n_out 1) bs sizes ->
  has_shape a n 1 ->
  has_shape (forward_spec ws bs a) (default n (last sizes)) 1.
Proof.
  induction sizes as [|n1 sizes IH]; intros n ws bs a Hw Hb Ha.
  - inversion Hw; subst. exact Ha.
  - inversion Hw as [|w ? ws' ? Hw1 Hws]; subst. inversion Hb as [|b ? bs' ? Hb1 Hbs]; subst.
    cbn [forward_spec]. rewrite last_cons_default. apply IH; [exact Hws | exact Hbs |].
    destruct Hw1 as (<- & _). apply affine_sigmoid_spec_shape.
Qed.

Lemma last_snoc_ok {A} (l : list A) (x : A) : py_last (l ++ [x]) = Ok x.
Proof. unfold py_last. rewrite last_snoc. reflexivity. Qed.

(** The loop of [feedforward]: from a trace that ends with [prev], it
    returns a trace that ends with the specified output, in the same
    state. *)
Lemma feedforward_loop sizes : forall n ws bs acts prev (nn : NeuralNetwork),
  Forall2 (fun w '(n_in, n_out) => has_shape w n_out n_in) ws (zip (n :: sizes) sizes) ->
  Forall2 (fun b n_out => has_shape b n_out 1) bs sizes ->
  has_shape prev n 1 ->
  wp (for_loop (zip bs ws) (acts ++ [prev])
        (fun activations '(b, w) =>
           let* prev := lift_result (py_last activations) in
           let* wa := lift_result (np_dot w prev) in
           let* z := lift_result (np_add wa b) in
           ret (activations ++ [sigmoid_array z])))
     (fun acts' nn' => nn' = nn /\ py_last acts' = Ok (forward_spec ws bs prev)) nn.
Proof.
  induction sizes as [|n1 sizes IH]; intros n ws bs acts prev nn Hw Hb Hp.
  - inversion Hw; subst. inversion Hb; subst. cbn [zip zip_with for_loop forward_spec].
    apply wp_ret. split; [reflexivity | apply last_snoc_ok].
  - inversion Hw as [|w ? ws' ? Hw1 Hws]; subst. inversion Hb as [|b ? bs' ? Hb1 Hbs]; subst.
    destruct (layer_refines w b prev n1 n Hw1 Hb1 Hp) as (wa & z & Hdot & Hadd & Hz).
    cbn [zip zip_with for_loop forward_spec]. apply wp_bind.
    apply wp_bind. eapply wp_lift; [apply last_snoc_ok|].
    apply wp_bind. eapply wp_lift; [exact Hdot|].
    apply wp_bind. eapply wp_lift; [exact Hadd|].
    apply wp_ret. rewrite Hz.
    apply (IH n1 ws' bs' (acts ++ [prev]) (affine_sigmoid_spec w b prev) nn Hws Hbs).
    destruct Hw1 as (<- & _). apply affine_sigmoid_spec_shape.
Qed.

(** On a network that satisfies the shape invariant and an input column of
    the input size, [feedforward] returns the specified output. *)
Lemma feedforward_refines sizes nn a :
  shape_inv sizes nn -> has_shape a (input_size sizes) 1 ->
  feedforward a nn = (Ok (forward_spec (weights nn) (biases nn) a), nn).
Proof.
  intros (Hw & Hb & _) Ha.
  assert (H : wp (feedforward a)
                 (fun out nn' => nn' = nn /\ out = forward_spec (weights nn) (biases nn) a) nn).
  { unfold feedforward. apply wp_bind, wp_gets. apply wp_bind, wp_gets.
    apply wp_bind. destruct sizes as [|n sizes].
    - cbn [zip zip_with tail] in Hw, Hb. inversion Hw as [Hw'|]. inversion Hb as [Hb'|].
      cbn [zip zip_with for_loop forward_spec]. apply wp_ret.
      eapply wp_lift; [reflexivity | split; reflexivity].
    - cbn [tail] in Hw, Hb. cbn [input_size hd] in Ha.
      eapply wp_mono; [apply (feedforward_loop sizes n _ _ [] a nn Hw Hb Ha)|].
      intros acts' nn' [-> Hlast]. eapply wp_lift; [exact Hlast | split; reflexivity]. }
  apply wp_elim in H. destruct H as (out & nn' & Heq & -> & ->). exact Heq.
Qed.

(** [feedforward] never writes to the network, whether it returns or raises. *)
Lemma feedforward_keeps a : keeps eq (feedforward a).
Proof.
  unfold feedforward.
  apply keeps_bind; [apply _ | apply keeps_gets, _ | intros bs].
  apply keeps_bind; [apply _ | apply keeps_gets, _ | intros ws].
  apply keeps_bind; [apply _ | | intros acts; apply keeps_lift, _].
  apply keeps_for_loop; [apply _|]. intros acc [b w].
  repeat (apply keeps_bind; [apply _ | apply keeps_lift, _ | intros ?]).
  apply keeps_ret, _.
Qed.

(** ** Slices and ranges *)

Lemma py_slice_from_1 {A} (l : list A) : py_slice_from l 1 = tail l.
Proof.
  unfold py_slice_from, py_slice, slice_bound.
  destruct l as [|x l]; [reflexivity|].
  set (n := Z.of_nat (length (x :: l))).
  assert (Hn : n = (Z.of_nat (length l) + 1)%Z) by (subst n; cbn [length]; lia).
  destruct (Z.ltb_spec 1 0); [lia|]. destruct (Z.ltb_spec n 0); [lia|].
  replace (Z.to_nat (Z.min 1 n)) with 1%nat by lia.
  replace (Z.to_nat (Z.min n n - Z.min 1 n)) with (length l) by lia.
  cbn [drop tail]. rewrite drop_0. apply firstn_all.
Qed.

Lemma py_slice_drop_last {A} (l : list A) :
  py_slice l 0 (-1) = take (length l - 1) l.
Proof.
  unfold py_slice, slice_bound.
  destruct (Z.ltb_spec 0 0); [lia|]. destruct (Z.ltb_spec (-1) 0); [|lia].
  replace (Z.to_nat (Z.min 0 (Z.of_nat (length l)))) with 0%nat by lia.
  rewrite drop_0. f_equal. lia.
Qed.

Lemma zip_take_length {A B} (k : list B) : forall l : list A,
  zip (take (length k) l) k = zip l k.
Proof.
  induction k as [|y k IH]; intros [|x l]; try reflexivity.
  cbn [length take zip zip_with]. f_equal. apply IH.
Qed.

Lemma zip_layer_slices {A} (l : list A) :
  zip (py_slice l 0 (-1)) (py_slice_from l 1) = zip l (tail l).
Proof.
  rewrite py_slice_drop_last, py_slice_from_1.
  destruct l as [|x l]; [reflexivity|].
  cbn [length tail]. replace (Datatypes.S (length l) - 1)%nat with (length l) by lia.
  apply zip_take_length.
Qed.

Lemma elem_of_zip {A B} (l : list A) (k : list B) i x y :
  zip l k !! i = Some (x, y) -> l !! i = Some x /\ k !! i = Some y.
Proof.
  revert k i. induction l as [|a l IH]; intros [|b k] [|i] H; try discriminate.
  - cbn in H. inversion H; subst. split; reflexivity.
  - cbn in H. apply IH in H. exact H.
Qed.

(** ** The constructor *)

Lemma np_zeros_has_shape r c : has_shape (np_zeros r c) r c.
Proof. repeat split. cbn [np_zeros flat]. apply repeat_length. Qed.

Lemma np_zeros_all_zero r c : all_zero (np_zeros r c).
Proof.
  unfold all_zero, np_zeros. cbn [flat].
  induction (r * c)%nat as [|k IH]; cbn [repeat]; constructor; auto.
Qed.

Lemma randn_shape d0 d1 g :
  (0 <= d0)%Z -> (0 <= d1)%Z ->
  wp (randn d0 d1) (fun x _ => has_shape x (Z.to_nat d0) (Z.to_nat d1)) g.
Proof.
  intros H0 H1. unfold randn.
  destruct (Z.ltb_spec d0 0); [lia|]. destruct (Z.ltb_spec d1 0); [lia|]. cbn [orb].
  apply wp_bind.
  eapply wp_mono.
  - apply (wp_comprehension _ (fun _ _ => True) (fun _ _ => True)); [exact I|].
    intros k x s _ _. unfold wp, standard_normal. auto.
  - intros xs g' [HF _]. apply wp_ret. repeat split. cbn [flat].
    apply Forall2_length in HF. rewrite <- HF. apply length_seq.
Qed.

Lemma initialize_weights_xavier_shape n_in n_out g :
  (0 < n_in)%Z -> (0 <= n_out)%Z ->
  wp (initialize_weights_xavier n_in n_out)
     (fun w _ => has_shape w (Z.to_nat n_out) (Z.to_nat n_in)) g.
Proof.
  intros Hin Hout. unfold initialize_weights_xavier. apply wp_bind.
  eapply wp_mono; [apply randn_shape; lia|].
  intros w g' (Hw0 & Hw1 & Hlen). destruct (Z.eqb_spec n_in 0); [lia|].
  apply wp_ret. repeat split; try assumption.
  cbn [np_map flat]. rewrite length_map. exact Hlen.
Qed.

Lemma weight_shapes_of_sizes (l : list Z) : forall (k : list Z) (ws : list ndarray),
  Forall2 (fun '(x, y) w => has_shape w (Z.to_nat y) (Z.to_nat x)) (zip l k) ws ->
  Forall2 (fun w '(n_in, n_out) => has_shape w n_out n_in)
          ws (zip (map Z.to_nat l) (map Z.to_nat k)).
Proof.
  induction l as [|x l IH]; intros [|y k] ws H; cbn [zip zip_with map] in *;
    try (inversion H; subst; constructor).
  - assumption.
  - apply IH. assumption.
Qed.

Lemma zero_buffers_shape (xs : list ndarray) :
  Forall2 (fun v x => has_shape v (shape0 x) (shape1 x))
          (map (fun x => np_zeros (shape0 x) (shape1 x)) xs) xs.
Proof.
  induction xs as [|x xs IH]; cbn [map]; constructor; [apply np_zeros_has_shape | exact IH].
Qed.

Lemma zero_buffers_zero (xs : list ndarray) :
  Forall all_zero (map (fun x => np_zeros (shape0 x) (shape1 x)) xs).
Proof.
  induction xs as [|x xs IH]; cbn [map]; constructor; [apply np_zeros_all_zero | exact IH].
Qed.

(** On positive layer sizes the constructor returns a network that
    satisfies the shape invariant, with zero velocity buffers. *)
Lemma NeuralNetwork_init_establishes layer_sizes g :
  positive_sizes layer_sizes ->
  wp (NeuralNetwork_init layer_sizes)
     (fun nn _ => shape_inv (map Z.to_nat layer_sizes) nn /\ zero_velocity nn) g.
Proof.
  intros Hpos. unfold NeuralNetwork_init.
  rewrite zip_layer_slices, py_slice_from_1.
  assert (Htl : Forall (fun n => (0 < n)%Z) (tail layer_sizes))
    by (destruct layer_sizes; [constructor | inversion Hpos; assumption]).
  apply wp_bind. eapply wp_mono.
  - apply (wp_comprehension _ (fun '(x, y) w => has_shape w (Z.to_nat y) (Z.to_nat x))
             (fun _ _ => True)); [exact I|].
    intros k [x y] s Hk _. apply elem_of_zip in Hk. destruct Hk as [Hx Hy].
    eapply wp_mono.
    + apply initialize_weights_xavier_shape.
      * apply (proj1 (Forall_lookup _ _) Hpos _ _ Hx).
      * apply Z.lt_le_incl, (proj1 (Forall_lookup _ _) Htl _ _ Hy).
    + intros w g1 Hw. split; [exact Hw | exact I].
  - intros ws g1 [Hws _]. cbv beta. apply wp_bind. eapply wp_mono.
    + apply (wp_comprehension _ (fun y b => has_shape b (Z.to_nat y) 1)
               (fun _ _ => True)); [exact I|].
      intros k y s Hk _. eapply wp_mono.
      * apply (randn_shape y 1); [|lia].
        apply Z.lt_le_incl, (proj1 (Forall_lookup _ _) Htl _ _ Hk).
      * intros b g2 Hb. split; [exact Hb | exact I].
    + intros bs g2 [Hbs _]. apply wp_ret. split.
      * unfold shape_inv. cbn [weights biases velocity_w velocity_b].
        split; [|split; [|split]].
        -- replace (tail (map Z.to_nat layer_sizes)) with (map Z.to_nat (tail layer_sizes))
             by (destruct layer_sizes; reflexivity).
           apply weight_shapes_of_sizes, Hws.
        -- replace (tail (map Z.to_nat layer_sizes)) with (map Z.to_nat (tail layer_sizes))
             by (destruct layer_sizes; reflexivity).
           apply Forall2_fmap_r, Forall2_flip. exact Hbs.
        -- apply zero_buffers_shape.
        -- apply zero_buffers_shape.
      * split; apply zero_buffers_zero.
Qed.

(** ** Shuffling *)

Lemma insert_Permutation {A} (l : list A) : forall i x y,
  l !! i = Some x -> Permutation (y :: l) (x :: <[i := y]> l).
Proof.
  induction l as [|a l IH]; intros [|i] x y H; try discriminate.
  - cbn in H. inversion H; subst. cbn. apply perm_swap.
  - cbn in H. cbn [insert list_insert].
    change (list_insert i y l) with (<[i := y]> l).
    eapply perm_trans; [apply perm_swap|].
    eapply perm_trans; [apply perm_skip, (IH i x y H)|]. apply perm_swap.
Qed.

Lemma swap_Permutation {A} (l : list A) i j : Permutation l (swap l i j).
Proof.
  unfold swap. destruct (l !! i) as [xi|] eqn:Hi; [|reflexivity].
  destruct (l !! j) as [xj|] eqn:Hj; [|reflexivity].
  apply (Permutation_cons_inv (a := xj)).
  eapply perm_trans; [apply (insert_Permutation l i xi xj Hi)|].
  apply insert_Permutation.
  destruct (decide (i = j)) as [->|Hne].
  - apply list_lookup_insert_eq. eapply lookup_lt_Some, Hi.
  - rewrite list_lookup_insert_ne by exact Hne. exact Hj.
Qed.

(** [np.random.shuffle] always returns, with a permutation of its argument. *)
Lemma shuffle_Permutation {A} (x : list A) g :
  wp (shuffle x) (fun x' _ => Permutation x x') g.
Proof.
  unfold shuffle.
  eapply wp_mono.
  - apply (wp_for_loop _ (fun _ x' _ => Permutation x x')); [reflexivity|].
    intros k i acc s _ Hacc. apply wp_bind. unfold wp at 1, random_interval.
    apply wp_ret. eapply perm_trans; [exact Hacc | apply swap_Permutation].
  - intros x' g' H. exact H.
Qed.

Lemma shuffle_training_data_run (w : world) :
  exists l' g',
    shuffle_training_data w = (Ok tt, mk_world (self w) l' g' (stdout w)) /\
    Permutation (training_data w) l'.
Proof.
  destruct (wp_elim _ _ _ (shuffle_Permutation (training_data w) (np_random w)))
    as (l' & g' & Hrun & Hperm).
  exists l', g'. split; [|exact Hperm].
  unfold shuffle_training_data, bind, gets, on_random, zoom, set_training_data, modify.
  rewrite Hrun. reflexivity.
Qed.

(** ** What [train] leaves alone *)

#[local] Instance train_frame_preorder : PreOrder train_frame.
Proof.
  split.
  - intros w. split; reflexivity.
  - intros w1 w2 w3 [H1 P1] [H2 P2]. split; [congruence | eapply perm_trans; eassumption].
Qed.

Lemma on_self_keeps {A} (m : M NeuralNetwork A) :
  keeps eq m -> keeps train_frame (on_self m).
Proof.
  intros Hm. unfold on_self. eapply keeps_zoom; [exact Hm|].
  intros s t <-. split; reflexivity.
Qed.

Lemma gradient_descent_keeps mini_batch eta mu : keeps eq (gradient_descent mini_batch eta mu).
Proof. intros nn. reflexivity. Qed.

Lemma backpropagation_keeps x y : keeps eq (backpropagation x y).
Proof. intros nn. reflexivity. Qed.

Lemma cost_derivative_keeps out y : keeps eq (cost_derivative out y).
Proof. intros nn. reflexivity. Qed.

Lemma shuffle_training_data_keeps : keeps train_frame shuffle_training_data.
Proof.
  intros w. destruct (shuffle_training_data_run w) as (l' & g' & -> & Hperm).
  split; [reflexivity | exact Hperm].
Qed.

Lemma print_keeps j loss : keeps train_frame (print j loss).
Proof. intros w. split; reflexivity. Qed.

Lemma epoch_keeps n mini_batch_size decay learning_rate j :
  keeps train_frame (epoch n mini_batch_size decay learning_rate j).
Proof.
  unfold epoch.
  apply keeps_bind; [apply _ | apply shuffle_training_data_keeps | intros _].
  apply keeps_bind; [apply _ | apply keeps_gets, _ | intros l].
  apply keeps_bind; [apply _ | apply keeps_lift, _ | intros mini_batches].
  apply keeps_bind; [apply _ | | intros _].
  { apply keeps_for_loop; [apply _|]. intros _ mini_batch.
    apply on_self_keeps, gradient_descent_keeps. }
  apply keeps_bind; [apply _ | | intros _; apply keeps_ret, _].
  destruct (j mod 100 =? 0)%Z; [|apply keeps_ret, _].
  apply keeps_bind; [apply _ | apply keeps_gets, _ | intros l2].
  apply keeps_bind; [apply _ | | intros losses].
  { apply keeps_comprehension; [apply _|]. intros [x y].
    apply keeps_bind; [apply _ | apply on_self_keeps, feedforward_keeps | intros out].
    apply keeps_bind; [apply _ | apply on_self_keeps, cost_derivative_keeps | intros d].
    apply keeps_ret, _. }
  apply keeps_bind; [apply _ | apply keeps_lift, _ | intros loss]. apply print_keeps.
Qed.

Lemma train_loop_keeps epochs mini_batch_size learning_rate decay :
  keeps train_frame (train_loop epochs mini_batch_size learning_rate decay).
Proof.
  unfold train_loop.
  apply keeps_bind; [apply _ | apply keeps_gets, _ | intros n].
  apply keeps_bind; [apply _ | apply keeps_lift, _ | intros js].
  apply keeps_for_loop; [apply _|]. intros lr j. apply epoch_keeps.
Qed.

(** Whether [train] returns or raises, it leaves the network as it was and
    the caller's list with the same examples. *)
Lemma train_keeps epochs mini_batch_size learning_rate decay :
  keeps train_frame (train epochs mini_batch_size learning_rate decay).
Proof.
  unfold train.
  apply keeps_bind; [apply _ | apply train_loop_keeps | intros _; apply keeps_ret, _].
Qed.

(** ** Mini-batches *)

Lemma py_range_zero_step start stop : py_range start stop 0 = Raise ValueError.
Proof. reflexivity. Qed.

Lemma py_range_count (epochs : Z) :
  exists js, py_range 0 epochs 1 = Ok js /\ length js = Z.to_nat epochs.
Proof.
  unfold py_range. cbn [Z.eqb]. eexists. split; [reflexivity|].
  rewrite length_map, length_seq. unfold range_length. cbn [Z.ltb Z.compare].
  destruct (Z.ltb_spec 0 epochs); [|lia].
  rewrite Z.div_1_r. lia.
Qed.

Lemma py_range_negative_step (n step : Z) :
  (0 <= n)%Z -> (step < 0)%Z -> py_range 0 n step = Ok [].
Proof.
  intros Hn Hs. unfold py_range, range_length.
  destruct (Z.eqb_spec step 0); [lia|].
  destruct (Z.ltb_spec 0 step); [lia|]. destruct (Z.ltb_spec n 0); [lia|]. reflexivity.
Qed.





Lemma mini_batches_of_ok l n m : m <> 0%Z -> exists bs, mini_batches_of l n m = Ok bs.
Proof.
  intros Hm. unfold mini_batches_of, py_range.
  destruct (Z.eqb_spec m 0); [contradiction|]. eexists. reflexivity.
Qed.

(** A batch size of 0 raises [ValueError]; a negative one gives no batch. *)
Lemma mini_batches_of_zero l n : mini_batches_of l n 0 = Raise ValueError.
Proof. reflexivity. Qed.

Lemma mini_batches_of_negative l n m :
  (0 <= n)%Z -> (m < 0)%Z -> mini_batches_of l n m = Ok [].
Proof.
  intros Hn Hm. unfold mini_batches_of. rewrite py_range_negative_step by assumption.
  reflexivity.
Qed.




(** ** The training driver returns on well-shaped data *)

Lemma forward_spec_output_shape sizes nn a :
  shape_inv sizes nn -> has_shape a (input_size sizes) 1 ->
  has_shape (forward_spec (weights nn) (biases nn) a) (output_size sizes) 1.
Proof.
  intros (Hw & Hb & _) Ha. destruct sizes as [|n sizes].
  - cbn [zip zip_with tail] in Hw. inversion Hw. exact Ha.
  - unfold output_size. rewrite (last_cons_default 0%nat n sizes).
    apply forward_spec_shape; assumption.
Qed.

Lemma np_mean_ok (xs : list ndarray) r c :
  Forall (fun x => shape0 x = r /\ shape1 x = c) xs -> exists v, np_mean xs = Ok v.
Proof.
  intros H. destruct xs as [|x xs]; [eexists; reflexivity|].
  inversion H as [|? ? [Hx0 Hx1] Hxs]; subst. unfold np_mean.
  assert (Hall : forallb (same_shape x) xs = true).
  { apply forallb_forall. intros y Hy.
    destruct (proj1 (Forall_forall _ _) Hxs y (proj2 (list_elem_of_In _ _) Hy)) as [Hy0 Hy1].
    unfold same_shape. rewrite !bool_decide_eq_true_2 by congruence. reflexivity. }
  rewrite Hall. destruct (flat_map flat (x :: xs)); eexists; reflexivity.
Qed.

(** The loss of one example, as the driver computes it for the log. *)
Lemma example_loss_wp sizes (w : world) x y :
  shape_inv sizes (self w) ->
  has_shape x (input_size sizes) 1 -> has_shape y (output_size sizes) 1 ->
  wp (let* out := on_self (feedforward x) in
      let* d := on_self (cost_derivative out y) in
      ret (np_map (fun v => v ^ 2) d))
     (fun loss w' => w' = w /\ shape0 loss = output_size sizes /\ shape1 loss = 1%nat) w.
Proof.
  intros Hinv Hx Hy. destruct w as [nn l g out0]. cbn [self] in Hinv.
  pose proof (feedforward_refines sizes nn x Hinv Hx) as Hff.
  pose proof (forward_spec_output_shape sizes nn x Hinv Hx) as Hout.
  apply wp_bind. unfold on_self at 1. apply wp_zoom. cbn [self].
  eapply wp_intro; [exact Hff|]. cbn [training_data np_random stdout].
  apply wp_bind. unfold on_self. apply wp_zoom. unfold cost_derivative, np_subtract.
  rewrite (broadcast2_same_shape Rminus _ y _ _ Hout Hy).
  eapply wp_lift; [reflexivity|]. apply wp_ret. cbn. auto.
Qed.

Lemma Forall_shapes_of_losses sizes (l : list (ndarray * ndarray)) losses :
  Forall2 (fun (_ : ndarray * ndarray) loss =>
             shape0 loss = output_size sizes /\ shape1 loss = 1%nat) l losses ->
  Forall (fun x => shape0 x = output_size sizes /\ shape1 x = 1%nat) losses.
Proof. induction 1; constructor; assumption. Qed.

(** One epoch on well-shaped data and a non-zero batch size: it returns the
    decayed learning rate, leaves the network alone and permutes the list. *)
Lemma epoch_wp sizes (w : world) n mini_batch_size decay learning_rate j :
  shape_inv sizes (self w) -> data_fits sizes (training_data w) ->
  mini_batch_size <> 0%Z ->
  wp (epoch n mini_batch_size decay learning_rate j)
     (fun lr' w' => lr' = learning_rate * decay /\ self w' = self w /\
                    Permutation (training_data w) (training_data w')) w.
Proof.
  intros Hinv Hfit Hm. unfold epoch.
  destruct (shuffle_training_data_run w) as (l' & g' & Hrun & Hperm).
  assert (Hfit' : data_fits sizes l').
  { unfold data_fits in *. eapply Permutation_Forall; eassumption. }
  set (w1 := mk_world (self w) l' g' (stdout w)) in *.
  apply wp_bind. eapply wp_intro; [exact Hrun|].
  apply wp_bind, wp_gets. cbn [training_data w1].
  destruct (mini_batches_of_ok l' n mini_batch_size Hm) as (bs & Hbs).
  apply wp_bind. eapply wp_lift; [exact Hbs|].
  apply wp_bind. eapply wp_mono.
  { apply (wp_for_loop _ (fun _ _ s => s = w1)); [reflexivity|].
    intros k mb [] s _ ->. reflexivity. }
  intros [] s ->. cbv beta.
  apply wp_bind.
  assert (Hlog : wp (if (j mod 100 =? 0)%Z
                     then
                       let* l := gets training_data in
                       let* losses := comprehension
                                        (fun '(x, y) =>
                                           let* out := on_self (feedforward x) in
                                           let* d := on_self (cost_derivative out y) in
                                           ret (np_map (fun v => v ^ 2) d)) l in
                       let* loss := lift_result (np_mean losses) in
                       print j loss
                     else ret tt)
                    (fun _ w' => self w' = self w /\ training_data w' = l') w1).
  { destruct (j mod 100 =? 0)%Z; [|apply wp_ret; split; reflexivity].
    apply wp_bind, wp_gets. apply wp_bind. eapply wp_mono.
    - apply (wp_comprehension _
               (fun _ loss => shape0 loss = output_size sizes /\ shape1 loss = 1%nat)
               (fun _ s => s = w1)); [reflexivity|].
      intros k [x y] s Hk ->.
      pose proof (proj1 (Forall_lookup _ _) Hfit' _ _ Hk) as [Hx Hy].
      eapply wp_mono; [apply (example_loss_wp sizes w1 x y Hinv Hx Hy)|].
      intros loss s' (-> & H0 & H1). auto.
    - intros losses s [HF ->]. cbv beta.
      destruct (np_mean_ok losses _ _ (Forall_shapes_of_losses _ _ _ HF)) as (v & Hv).
      apply wp_bind. eapply wp_lift; [exact Hv|]. split; reflexivity. }
  eapply wp_mono; [exact Hlog|].
  intros [] w' [Hself Hdata]. apply wp_ret.
  split; [reflexivity|]. split; [exact Hself|]. rewrite Hdata. exact Hperm.
Qed.

Lemma train_loop_wp sizes (w : world) epochs mini_batch_size learning_rate decay :
  shape_inv sizes (self w) -> data_fits sizes (training_data w) ->
  mini_batch_size <> 0%Z ->
  wp (train_loop epochs mini_batch_size learning_rate decay)
     (fun lr' w' => lr' = learning_rate * decay ^ Z.to_nat epochs /\
                    self w' = self w /\
                    Permutation (training_data w) (training_data w')) w.
Proof.
  intros Hinv Hfit Hm. unfold train_loop.
  apply wp_bind, wp_gets.
  destruct (py_range_count epochs) as (js & Hjs & Hlen).
  apply wp_bind. eapply wp_lift; [exact Hjs|]. rewrite <- Hlen.
  apply (wp_for_loop _ (fun k lr' w' => lr' = learning_rate * decay ^ k /\
                                        self w' = self w /\
                                        Permutation (training_data w) (training_data w'))).
  - split; [cbn; lra|]. split; reflexivity.
  - intros k j lr s _ (-> & Hself & Hperm).
    eapply wp_mono.
    + apply (epoch_wp sizes s); [rewrite Hself; exact Hinv | | exact Hm].
      unfold data_fits in *. eapply Permutation_Forall; eassumption.
    + intros lr' s' (-> & Hself' & Hperm'). split; [cbn [pow]; lra|].
      split; [congruence | eapply perm_trans; eassumption].
Qed.

Lemma train_wp sizes (w : world) epochs mini_batch_size learning_rate decay :
  shape_inv sizes (self w) -> data_fits sizes (training_data w) ->
  mini_batch_size <> 0%Z ->
  wp (train epochs mini_batch_size learning_rate decay)
     (fun _ w' => self w' = self w /\
                  Permutation (training_data w) (training_data w')) w.
Proof.
  intros Hinv Hfit Hm. unfold train. apply wp_bind.
  eapply wp_mono; [apply (train_loop_wp sizes w); eassumption|].
  intros lr' w' (_ & Hself & Hperm). apply wp_ret. split; assumption.
Qed.

(** ** The only exception of the methods is [ValueError] *)

Lemma np_dot_raises a b :
  match np_dot a b with Ok _ => True | Raise e => e = ValueError end.
Proof. unfold np_dot. destruct (decide _); auto. Qed.

Lemma broadcast2_raises op x y :
  match broadcast2 op x y with Ok _ => True | Raise e => e = ValueError end.
Proof.
  unfold broadcast2. destruct (broadcast_dim _ _); [|reflexivity].
  destruct (broadcast_dim _ _); auto.
Qed.

Lemma np_mean_raises xs :
  match np_mean xs with Ok _ => True | Raise e => e = ValueError end.
Proof.
  unfold np_mean. destruct xs as [|x xs]; [exact I|].
  destruct (forallb _ _); [|reflexivity]. destruct (flat_map _ _); exact I.
Qed.

Lemma mini_batches_of_raises l n m :
  match mini_batches_of l n m with Ok _ => True | Raise e => e = ValueError end.
Proof. unfold mini_batches_of, py_range. destruct (m =? 0)%Z; auto. Qed.

Lemma feedforward_raises a nn :
  wpe (feedforward a) (fun _ _ => True) (fun e => e = ValueError) nn.
Proof.
  unfold feedforward. apply wpe_bind, wpe_gets. apply wpe_bind, wpe_gets.
  apply wpe_bind. eapply wpe_mono.
  - apply (wpe_for_loop _ (fun acts _ => acts <> [])); [|discriminate].
    intros acts [b w] s Hne. apply wpe_bind, wpe_lift.
    unfold py_last. destruct (last acts) as [prev|] eqn:Hlast.
    + apply wpe_bind, wpe_lift. pose proof (np_dot_raises w prev) as Hd.
      destruct (np_dot w prev) as [wa|e]; [|exact Hd].
      apply wpe_bind, wpe_lift. pose proof (broadcast2_raises Rplus wa b) as Hb.
      unfold np_add. destruct (broadcast2 Rplus wa b) as [z|e]; [|exact Hb].
      apply wpe_ret. intros Hnil. apply app_eq_nil in Hnil. destruct Hnil; discriminate.
    + apply last_None in Hlast. contradiction.
  - intros acts s Hne. apply wpe_lift. unfold py_last.
    destruct (last acts) eqn:Hlast; [exact I|]. apply last_None in Hlast. contradiction.
Qed.

Lemma epoch_raises n mini_batch_size decay learning_rate j w :
  wpe (epoch n mini_batch_size decay learning_rate j) (fun _ _ => True)
      (fun e => e = ValueError) w.
Proof.
  unfold epoch. destruct (shuffle_training_data_run w) as (l' & g' & Hrun & _).
  apply wpe_bind. unfold wpe at 1. rewrite Hrun.
  apply wpe_bind, wpe_gets. apply wpe_bind, wpe_lift.
  pose proof (mini_batches_of_raises (training_data (mk_world (self w) l' g' (stdout w)))
                n mini_batch_size) as Hmb.
  destruct (mini_batches_of _ n mini_batch_size) as [bs|e]; [|exact Hmb].
  apply wpe_bind. eapply wpe_mono.
  { apply (wpe_for_loop _ (fun _ _ => True)); [|exact I]. intros [] mb s _. exact I. }
  intros _ s _. cbv beta. apply wpe_bind.
  eapply wpe_mono with (Q := fun _ _ => True); [|intros; apply wpe_ret; exact I].
  destruct (j mod 100 =? 0)%Z; [|exact I].
  apply wpe_bind, wpe_gets. apply wpe_bind. eapply wpe_mono.
  - apply (wpe_comprehension _ (fun _ => True)); [|exact I].
    intros [x y] s1 _. apply wpe_bind. unfold on_self at 1. apply wpe_zoom.
    eapply wpe_mono; [apply feedforward_raises|]. intros out nn _. cbv beta.
    apply wpe_bind. unfold on_self. apply wpe_zoom. unfold cost_derivative.
    apply wpe_lift. pose proof (broadcast2_raises Rminus out y) as Hs.
    unfold np_subtract. destruct (broadcast2 Rminus out y) as [d|e]; [|exact Hs]. exact I.
  - intros losses s1 _. cbv beta. apply wpe_bind, wpe_lift.
    pose proof (np_mean_raises losses) as Hmean.
    destruct (np_mean losses) as [v|e]; [|exact Hmean]. exact I.
Qed.

(** Whatever its arguments, [train] returns or raises [ValueError]. *)
Lemma train_raises epochs mini_batch_size learning_rate decay w :
  wpe (train epochs mini_batch_size learning_rate decay) (fun _ _ => True)
      (fun e => e = ValueError) w.
Proof.
  unfold train, train_loop. apply wpe_bind. apply wpe_bind, wpe_gets.
  destruct (py_range_count epochs) as (js & Hjs & _). rewrite Hjs.
  apply wpe_bind, wpe_lift.
  eapply wpe_mono.
  - apply (wpe_for_loop _ (fun _ _ => True)); [|exact I].
    intros lr j s _. apply epoch_raises.
  - intros lr s _. exact I.
Qed.

(** ** The learning rate *)

Lemma epoch_value n mini_batch_size decay learning_rate j w lr' w' :
  epoch n mini_batch_size decay learning_rate j w = (Ok lr', w') ->
  lr' = learning_rate * decay.
Proof.
  intros Hrun.
  assert (H : wpe (epoch n mini_batch_size decay learning_rate j)
                  (fun v _ => v = learning_rate * decay) (fun _ => True) w).
  { unfold epoch. repeat (apply wpe_bind_value; intros). apply wpe_ret. reflexivity. }
  unfold wpe in H. rewrite Hrun in H. exact H.
Qed.

Lemma epochs_value n mini_batch_size decay (js : list Z) : forall learning_rate w lr' w',
  for_loop js learning_rate (epoch n mini_batch_size decay) w = (Ok lr', w') ->
  lr' = learning_rate * decay ^ length js.
Proof.
  induction js as [|j js IH]; intros lr w lr' w' Hrun.
  - cbn in Hrun. inversion Hrun; subst. cbn. lra.
  - cbn [for_loop] in Hrun. unfold bind in Hrun.
    destruct (epoch n mini_batch_size decay lr j w) as [[lr1|e] w1] eqn:He; [|discriminate].
    apply epoch_value in He. apply IH in Hrun. subst. cbn [length pow]. lra.
Qed.

Lemma train_loop_value epochs mini_batch_size learning_rate decay w lr' w' :
  train_loop epochs mini_batch_size learning_rate decay w = (Ok lr', w') ->
  lr' = learning_rate * decay ^ Z.to_nat epochs.
Proof.
  unfold train_loop, bind, gets, lift_result.
  destruct (py_range_count epochs) as (js & -> & <-). apply epochs_value.
Qed.

(** ** Element-wise operators *)

Lemma from_fn_zip_with (op : R -> R -> R) (xs ys : list R) (r c : nat) :
  length xs = (r * c)%nat -> length ys = (r * c)%nat ->
  flat (from_fn r c (fun i j => op (nth (i * c + j) xs 0) (nth (i * c + j) ys 0)))
  = zip_with op xs ys.
Proof.
  intros Hx Hy. apply (nth_ext _ _ 0 0).
  - rewrite from_fn_length, length_zip_with. lia.
  - rewrite from_fn_length. intros k Hk.
    assert (Hc : (0 < c)%nat) by nia.
    pose proof (Nat.div_mod_eq k c) as Hdm.
    pose proof (Nat.mod_upper_bound k c ltac:(lia)) as Hj.
    assert (Hi : (k / c < r)%nat) by (apply Nat.Div0.div_lt_upper_bound; lia).
    replace k with (k / c * c + k mod c)%nat at 1 by lia.
    unfold from_fn. cbn [flat]. rewrite flat_map_rows_nth by assumption. cbn [Nat.add].
    replace (k / c * c + k mod c)%nat with k by lia.
    rewrite (nth_lookup (zip_with op xs ys)), lookup_zip_with.
    destruct (lookup_lt_is_Some_2 xs k ltac:(lia)) as [x Hxk].
    destruct (lookup_lt_is_Some_2 ys k ltac:(lia)) as [y Hyk].
    rewrite Hxk, Hyk. cbn. rewrite !nth_lookup, Hxk, Hyk. reflexivity.
Qed.

(** ** The example network and data *)

(** Shape facts about explicit arrays, lists and networks hold by
    evaluation. *)
Ltac shapes_by_evaluation :=
  unfold shape_inv, data_fits, valid_layer_sizes, positive_sizes, has_shape;
  cbn;
  repeat match goal with
         | |- _ /\ _ => split
         | |- Forall2 _ _ _ => constructor
         | |- Forall _ _ => constructor
         | |- _ = _ => reflexivity
         | |- (_ <= _)%nat => lia
         | |- (_ < _)%Z => lia
         end.

Lemma xor_network_shape_inv : shape_inv [2; 2; 1]%nat xor_network.
Proof. shapes_by_evaluation. Qed.

Lemma xor_data_fits : data_fits [2; 2; 1]%nat xor_data.
Proof. shapes_by_evaluation. Qed.

(** ** The constructor and the forward pass outside valid layer sizes *)

(** A layer of width 0 before another layer: [1.0 / n_in] divides by zero. *)
Example NeuralNetwork_init_zero_width :
  fst (NeuralNetwork_init [2; 0; 1]%Z constant_generator) = Raise ZeroDivisionError.
Proof. reflexivity. Qed.

(** A negative size: [randn] refuses the dimension. *)
Example NeuralNetwork_init_negative_size :
  fst (NeuralNetwork_init [2; -1]%Z constant_generator) = Raise ValueError.
Proof. reflexivity. Qed.

(** A list of one size gives a network without layers, and [feedforward]
    returns its input as it is. *)
Example feedforward_without_layers :
  fst (NeuralNetwork_init [2]%Z constant_generator) = Ok (mk_NeuralNetwork [] [] [] []) /\
  feedforward (column [5; 7]) (mk_NeuralNetwork [] [] [] [])
  = (Ok (column [5; 7]), mk_NeuralNetwork [] [] [] []).
Proof. split; reflexivity. Qed.

(** ** The claims *)

(** C1 (as the code has it): the two empty methods return [None] and leave
    the network as it was; [train] calls [gradient_descent] on every
    mini-batch and never uses what it returns, so no type or attribute error
    arises from it: whatever its arguments, the only exception [train] can
    raise is [ValueError] (a zero batch size, or shapes that do not fit), and
    on a network that satisfies the shape invariant, well-shaped data and a
    non-zero batch size it returns normally. *)
Theorem C1_empty_methods_do_not_fail_train :
  (forall x y nn, backpropagation x y nn = (Ok tt, nn)) /\
  (forall mini_batch eta mu nn, gradient_descent mini_batch eta mu nn = (Ok tt, nn)) /\
  (forall epochs mini_batch_size learning_rate decay w e,
      fst (train epochs mini_batch_size learning_rate decay w) = Raise e ->
      e = ValueError) /\
  (forall sizes epochs mini_batch_size learning_rate decay w,
      shape_inv sizes (self w) -> data_fits sizes (training_data w) ->
      mini_batch_size <> 0%Z ->
      fst (train epochs mini_batch_size learning_rate decay w) = Ok tt).
Proof.
  split; [reflexivity|]. split; [reflexivity|]. split.
  - intros epochs m lr decay w e Hraise.
    pose proof (train_raises epochs m lr decay w) as H. unfold wpe in H.
    destruct (train epochs m lr decay w) as [[[]|e'] w'];
      cbn [fst] in Hraise; [discriminate|]. congruence.
  - intros sizes epochs m lr decay w Hinv Hfit Hm.
    destruct (wp_elim _ _ _ (train_wp sizes w epochs m lr decay Hinv Hfit Hm))
      as ([] & w' & -> & _). reflexivity.
Qed.

(** The training run of [main] returns normally. *)
Lemma C1_witness :
  fst (train 20000 4 (1 / 10) (9999 / 10000) xor_world) = Ok tt.
Proof.
  apply (proj2 (proj2 (proj2 C1_empty_methods_do_not_fail_train)) [2; 2; 1]%nat).
  - shapes_by_evaluation.
  - shapes_by_evaluation.
  - lia.
Defined.

(** C1, as stated, fails on the run of [main]: the network is the one the
    constructor builds for [[2, 2, 1]], the data is the XOR table, and
    [train] returns [None] instead of raising. *)
Lemma C1_counterexample :
  NeuralNetwork_init [2; 2; 1]%Z constant_generator
  = (Ok (self xor_world), np_random xor_world) /\
  fst (train 20000 4 (1 / 10) (9999 / 10000) xor_world) = Ok tt /\
  forall e, fst (train 20000 4 (1 / 10) (9999 / 10000) xor_world) <> Raise e.
Proof.
  split; [reflexivity|].
  assert (H : fst (train 20000 4 (1 / 10) (9999 / 10000) xor_world) = Ok tt).
  { destruct (wp_elim _ _ _ (train_wp [2; 2; 1]%nat xor_world 20000 4 (1 / 10) (9999 / 10000)
                               xor_network_shape_inv xor_data_fits ltac:(lia)))
      as ([] & w' & -> & _). reflexivity. }
  split; [exact H|]. intros e. rewrite H. discriminate.
Qed.

(** C2 (as the code has it): [gradient_descent] returns [None] and changes
    nothing, and for every network that satisfies the shape invariant, every
    dataset of input columns and target columns of the network's sizes, every
    number of epochs, every non-zero mini-batch size, learning rate and
    decay, [train] returns normally and leaves [weights], [biases],
    [velocity_w] and [velocity_b] exactly as they were. *)
Theorem C2_train_leaves_parameters :
  forall sizes epochs mini_batch_size learning_rate decay (w : world),
    shape_inv sizes (self w) -> data_fits sizes (training_data w) ->
    mini_batch_size <> 0%Z ->
    (forall mini_batch eta mu nn, gradient_descent mini_batch eta mu nn = (Ok tt, nn)) /\
    exists w',
      train epochs mini_batch_size learning_rate decay w = (Ok tt, w') /\
      weights (self w') = weights (self w) /\
      biases (self w') = biases (self w) /\
      velocity_w (self w') = velocity_w (self w) /\
      velocity_b (self w') = velocity_b (self w).
Proof.
  intros sizes epochs m lr decay w Hinv Hfit Hm. split; [reflexivity|].
  destruct (wp_elim _ _ _ (train_wp sizes w epochs m lr decay Hinv Hfit Hm))
    as ([] & w' & Hrun & Hself & _).
  exists w'. rewrite Hself. auto.
Qed.

Lemma C2_witness :
  exists w',
    train 20000 4 (1 / 10) (9999 / 10000) xor_world = (Ok tt, w') /\
    weights (self w') = weights xor_network /\
    biases (self w') = biases xor_network /\
    velocity_w (self w') = velocity_w xor_network /\
    velocity_b (self w') = velocity_b xor_network.
Proof.
  apply (C2_train_leaves_parameters [2; 2; 1]%nat 20000 4 (1 / 10) (9999 / 10000) xor_world).
  - shapes_by_evaluation.
  - shapes_by_evaluation.
  - lia.
Defined.

(** C2, as stated, fails for a mini-batch size of 0 ([range] raises
    [ValueError] in the first epoch) and for a dataset whose inputs do not
    have the network's input size ([np.dot] raises [ValueError] when the
    loss of epoch 0 is computed). *)
Lemma C2_counterexample :
  fst (train 1 0 (1 / 10) (9999 / 10000) xor_world) = Raise ValueError /\
  fst (train 1 4 (1 / 10) (9999 / 10000) misshapen_world) = Raise ValueError.
Proof. split; reflexivity. Qed.




(** C5: the learning rate that the loop of [train] holds after its epochs
    is the initial rate times the decay to the power of the number of epochs:
    whenever the loop returns this is its value, and on a network that
    satisfies the shape invariant, well-shaped data and a non-zero batch size
    the loop does return. *)
Theorem C5_learning_rate_decay :
  forall (w : world) (epochs mini_batch_size : Z) (learning_rate decay : R),
    (forall lr' w',
        train_loop epochs mini_batch_size learning_rate decay w = (Ok lr', w') ->
        lr' = learning_rate * decay ^ Z.to_nat epochs) /\
    (forall sizes,
        shape_inv sizes (self w) -> data_fits sizes (training_data w) ->
        mini_batch_size <> 0%Z ->
        exists w',
          train_loop epochs mini_batch_size learning_rate decay w
          = (Ok (learning_rate * decay ^ Z.to_nat epochs), w')).
Proof.
  intros w epochs m lr decay. split.
  - intros lr' w'. apply train_loop_value.
  - intros sizes Hinv Hfit Hm.
    destruct (wp_elim _ _ _ (train_loop_wp sizes w epochs m lr decay Hinv Hfit Hm))
      as (lr' & w' & Hrun & -> & _).
    exists w'. exact Hrun.
Qed.

Lemma C5_witness :
  exists w',
    train_loop 3 4 (1 / 10) (9999 / 10000) xor_world
    = (Ok (1 / 10 * (9999 / 10000) ^ 3), w').
Proof.
  apply (proj2 (C5_learning_rate_decay xor_world 3 4 (1 / 10) (9999 / 10000)) [2; 2; 1]%nat).
  - shapes_by_evaluation.
  - shapes_by_evaluation.
  - lia.
Defined.

(** The shape invariant, layer by layer. *)
Lemma shape_inv_layer sizes nn l w :
  shape_inv sizes nn -> weights nn !! l = Some w ->
  exists n_in n_out b vw vb,
    sizes !! l = Some n_in /\ sizes !! S l = Some n_out /\
    has_shape w n_out n_in /\
    biases nn !! l = Some b /\ has_shape b n_out 1 /\
    velocity_w nn !! l = Some vw /\ has_shape vw n_out n_in /\
    velocity_b nn !! l = Some vb /\ has_shape vb n_out 1.
Proof.
  intros (Hw & Hb & Hvw & Hvb) Hl.
  destruct (Forall2_lookup_l _ _ _ _ _ Hw Hl) as ([n_in n_out] & Hz & Hws).
  apply elem_of_zip in Hz. destruct Hz as [Hin Hout].
  destruct (Forall2_lookup_r _ _ _ _ _ Hb Hout) as (b & Hbl & Hbs).
  rewrite lookup_tail in Hout.
  destruct (Forall2_lookup_r _ _ _ _ _ Hvw Hl) as (vw & Hvwl & Hvws).
  destruct (Forall2_lookup_r _ _ _ _ _ Hvb Hbl) as (vb & Hvbl & Hvbs).
  destruct Hws as (Hw0 & Hw1 & Hwlen). destruct Hbs as (Hb0 & Hb1 & Hblen).
  rewrite Hw0, Hw1 in Hvws. rewrite Hb0, Hb1 in Hvbs.
  exists n_in, n_out, b, vw, vb.
  repeat split; try assumption; first [apply Hvws | apply Hvbs].
Qed.

(** C6: for every valid layer-size list the constructor returns a network
    that satisfies the shape invariant (the weight matrix of a layer has as
    many rows as the layer has outputs and as many columns as the layer
    before it has outputs, or the network has inputs for the first layer;
    the bias of a layer is a column of its output size; the velocity buffers
    have the shapes of the weights and biases), with velocity buffers that
    are zero; and every operation ([feedforward], [backpropagation],
    [gradient_descent], [cost_derivative], [train]) ends, whether it returns
    or raises, with a network that satisfies the invariant whenever it
    started with one. *)
Theorem C6_shape_invariant :
  forall (layer_sizes : list Z) (g : RandomState),
    valid_layer_sizes layer_sizes ->
    let sizes := map Z.to_nat layer_sizes in
    (exists nn g',
        NeuralNetwork_init layer_sizes g = (Ok nn, g') /\
        shape_inv sizes nn /\ zero_velocity nn) /\
    (forall nn,
        shape_inv sizes nn ->
        (forall a, shape_inv sizes (snd (feedforward a nn))) /\
        (forall x y, shape_inv sizes (snd (backpropagation x y nn))) /\
        (forall mini_batch eta mu, shape_inv sizes (snd (gradient_descent mini_batch eta mu nn))) /\
        (forall out y, shape_inv sizes (snd (cost_derivative out y nn))) /\
        (forall l g1 lines epochs mini_batch_size learning_rate decay,
            shape_inv sizes
              (self (snd (train epochs mini_batch_size learning_rate decay
                            (mk_world nn l g1 lines)))))).
Proof.
  intros ls g [_ Hpos] sizes. split.
  - destruct (wp_elim _ _ _ (NeuralNetwork_init_establishes ls g Hpos))
      as (nn & g' & Hinit & Hinv & Hzero).
    exists nn, g'. auto.
  - intros nn Hinv. split; [|split; [|split; [|split]]].
    + intros a. rewrite <- (feedforward_keeps a nn). exact Hinv.
    + intros x y. exact Hinv.
    + intros mb eta mu. exact Hinv.
    + intros out y. rewrite <- (cost_derivative_keeps out y nn). exact Hinv.
    + intros l g1 lines epochs m lr decay.
      destruct (train_keeps epochs m lr decay (mk_world nn l g1 lines)) as [-> _].
      exact Hinv.
Qed.

Lemma C6_witness :
  (exists nn g',
      NeuralNetwork_init [2; 2; 1]%Z constant_generator = (Ok nn, g') /\
      shape_inv [2; 2; 1]%nat nn /\ zero_velocity nn) /\
  shape_inv [2; 2; 1]%nat (snd (feedforward (column [0; 1]) xor_network)).
Proof.
  assert (Hvalid : valid_layer_sizes [2; 2; 1]%Z) by shapes_by_evaluation.
  destruct (C6_shape_invariant [2; 2; 1]%Z constant_generator Hvalid) as [Hinit Hops].
  split; [exact Hinit|].
  apply (Hops xor_network); shapes_by_evaluation.
Defined.

(** C8: for a predicted output and a target of one shape, [cost_derivative]
    returns, without touching the network, the array of that shape whose
    elements are the differences, predicted output minus target, element by
    element. *)
Theorem C8_cost_derivative_difference :
  forall (output_activations y : ndarray) (r c : nat) (nn : NeuralNetwork),
    has_shape output_activations r c -> has_shape y r c ->
    exists d,
      cost_derivative output_activations y nn = (Ok d, nn) /\
      has_shape d r c /\
      flat d = zip_with Rminus (flat output_activations) (flat y) /\
      forall i j, (i < r)%nat -> (j < c)%nat ->
                  item d i j = item output_activations i j - item y i j.
Proof.
  intros out y r c nn Hout Hy.
  unfold cost_derivative, np_subtract, lift_result.
  rewrite (broadcast2_same_shape Rminus out y r c Hout Hy).
  eexists. split; [reflexivity|]. split; [apply from_fn_has_shape|]. split.
  - destruct Hout as (_ & Ho1 & Hol). destruct Hy as (_ & Hy1 & Hyl).
    unfold item. rewrite Ho1, Hy1. apply from_fn_zip_with; assumption.
  - intros i j Hi Hj. apply item_from_fn; assumption.
Qed.

Lemma C8_witness :
  exists d,
    cost_derivative (column [1 / 2; 1 / 4]) (column [1; 0]) xor_network = (Ok d, xor_network) /\
    has_shape d 2 1 /\
    flat d = [1 / 2 - 1; 1 / 4 - 0] /\
    forall i j, (i < 2)%nat -> (j < 1)%nat ->
                item d i j = item (column [1 / 2; 1 / 4]) i j - item (column [1; 0]) i j.
Proof.
  apply (C8_cost_derivative_difference (column [1 / 2; 1 / 4]) (column [1; 0]) 2 1 xor_network);
    shapes_by_evaluation.
Defined.

(** C9: [feedforward] does not mutate the network: after any call, whether
    it returned or raised, [weights], [biases], [velocity_w] and
    [velocity_b] are exactly as before the call. *)
Theorem C9_feedforward_no_mutation :
  forall (a : ndarray) (nn : NeuralNetwork),
    let nn' := snd (feedforward a nn) in
    nn' = nn /\
    weights nn' = weights nn /\ biases nn' = biases nn /\
    velocity_w nn' = velocity_w nn /\ velocity_b nn' = velocity_b nn.
Proof.
  intros a nn nn'. subst nn'. rewrite <- (feedforward_keeps a nn). auto.
Qed.

(** C10: [train] shuffles the caller's list in place: whatever the
    arguments, and whether [train] returns or raises, the list bound to
    [training_data] afterwards is a permutation of the list before the call,
    and the order can indeed change: one epoch on the XOR table with
    [constant_generator] leaves the table in another order. *)
Theorem C10_train_permutes_training_data :
  (forall (w : world) (epochs mini_batch_size : Z) (learning_rate decay : R),
      Permutation (training_data w)
                  (training_data (snd (train epochs mini_batch_size learning_rate decay w)))) /\
  training_data (snd (train 1 4 (1 / 10) (9999 / 10000) xor_world))
  = [ (column [0; 0], column [0]);
      (column [1; 0], column [1]);
      (column [1; 1], column [0]);
      (column [0; 1], column [1]) ] /\
  training_data (snd (train 1 4 (1 / 10) (9999 / 10000) xor_world))
  <> training_data xor_world.
Proof.
  split; [|split].
  - intros w epochs m lr decay. apply (train_keeps epochs m lr decay w).
  - reflexivity.
  - change (training_data (snd (train 1 4 (1 / 10) (9999 / 10000) xor_world)))
      with [ (column [0; 0], column [0]); (column [1; 0], column [1]);
             (column [1; 1], column [0]); (column [0; 1], column [1]) ].
    unfold xor_world, xor_data, column. cbn [training_data length].
    intros H. inversion H as [[H1 H2]]. lra.
Qed.

(** ** Further properties of the constructor *)

Lemma wpe_comprehension_all {S A B} (f : A -> M S B) (P : A -> Prop) (E : exn -> Prop) :
  (forall x s, wpe (f x) (fun _ _ => P x) E s) ->
  forall (l : list A) s, wpe (comprehension f l) (fun _ _ => Forall P l) E s.
Proof.
  intros Hf l. induction l as [|x l IH]; intros s.
  - apply wpe_ret. constructor.
  - cbn [comprehension]. apply wpe_bind.
    eapply wpe_mono; [apply Hf|]. intros y s1 Hx. cbv beta.
    apply wpe_bind. eapply wpe_mono; [apply IH|].
    intros ys s2 Hl. apply wpe_ret. constructor; assumption.
Qed.

(** Drawing deviates one after the other reads the oracle from the cursor
    on. *)
Lemma standard_normal_draws {A} (l : list A) : forall g,
  comprehension (fun _ : A => standard_normal) l g
  = (Ok (map (fun k => normal_oracle g (cursor g + k)) (seq 0 (length l))),
     mk_RandomState (normal_oracle g) (integer_oracle g) (cursor g + length l)).
Proof.
  induction l as [|x l IH]; intros g.
  - cbn. rewrite Nat.add_0_r. destruct g; reflexivity.
  - cbn [comprehension length]. unfold bind at 1. unfold standard_normal at 1.
    unfold bind. rewrite IH. unfold ret. cbn [advance normal_oracle integer_oracle cursor].
    f_equal.
    + f_equal. cbn [seq map]. rewrite Nat.add_0_r. f_equal.
      rewrite <- seq_shift, map_map. apply map_ext. intros k. f_equal. lia.
    + f_equal. lia.
Qed.

Lemma initialize_weights_xavier_cases n_in n_out g :
  match fst (initialize_weights_xavier n_in n_out g) with
  | Ok w =>
      ((0 < n_in)%Z /\ (0 <= n_out)%Z) /\
      shape0 w = Z.to_nat n_out /\ shape1 w = Z.to_nat n_in /\
      flat w = map (fun k => normal_oracle g (cursor g + k) * sqrt (1 / IZR n_in))
                   (seq 0 (Z.to_nat n_out * Z.to_nat n_in))
  | Raise e =>
      (e = ValueError /\ ((n_in < 0)%Z \/ (n_out < 0)%Z)) \/
      (e = ZeroDivisionError /\ n_in = 0%Z /\ (0 <= n_out)%Z)
  end.
Proof.
  unfold initialize_weights_xavier, randn, bind.
  destruct (Z.ltb_spec n_out 0) as [Hout|Hout]; cbn [orb].
  { cbn. left. split; [reflexivity | lia]. }
  destruct (Z.ltb_spec n_in 0) as [Hin|Hin].
  { cbn. left. split; [reflexivity | lia]. }
  rewrite standard_normal_draws. unfold ret.
  destruct (Z.eqb_spec n_in 0) as [Hz|Hz].
  { cbn. right. repeat split; [exact Hz | lia]. }
  cbn [fst np_map shape0 shape1 flat]. rewrite length_seq, map_map.
  repeat split; lia.
Qed.

(** X4: [initialize_weights_xavier] returns exactly when the input size is
    positive and the output size is not negative; the result then has
    [n_out] rows and [n_in] columns and its elements are the next normal
    deviates of the generator, each multiplied by the square root of
    [1 / n_in].  Otherwise it raises [ValueError] for a negative size and
    [ZeroDivisionError] for an input size of 0. *)
Theorem X4_initialize_weights_xavier_outcome :
  forall (n_in n_out : Z) (g : RandomState),
    match fst (initialize_weights_xavier n_in n_out g) with
    | Ok w =>
        ((0 < n_in)%Z /\ (0 <= n_out)%Z) /\
        shape0 w = Z.to_nat n_out /\ shape1 w = Z.to_nat n_in /\
        flat w = map (fun k => normal_oracle g (cursor g + k) * sqrt (1 / IZR n_in))
                     (seq 0 (Z.to_nat n_out * Z.to_nat n_in))
    | Raise e =>
        (e = ValueError /\ ((n_in < 0)%Z \/ (n_out < 0)%Z)) \/
        (e = ZeroDivisionError /\ n_in = 0%Z /\ (0 <= n_out)%Z)
    end.
Proof.
  intros n_in n_out g. unfold initialize_weights_xavier, randn, bind.
  destruct (Z.ltb_spec n_out 0) as [Hout|Hout]; cbn [orb].
  { cbn. left. split; [reflexivity | lia]. }
  destruct (Z.ltb_spec n_in 0) as [Hin|Hin].
  { cbn. left. split; [reflexivity | lia]. }
  rewrite standard_normal_draws. unfold ret.
  destruct (Z.eqb_spec n_in 0) as [Hz|Hz].
  { cbn. right. repeat split; [exact Hz | lia]. }
  cbn [fst np_map shape0 shape1 flat]. rewrite length_seq, map_map.
  repeat split; lia.
Qed.

Lemma randn_raises d0 d1 g :
  wpe (randn d0 d1) (fun _ _ => (0 <= d0)%Z /\ (0 <= d1)%Z) (fun e => e = ValueError) g.
Proof.
  unfold randn.
  destruct (Z.ltb_spec d0 0); cbn [orb]; [reflexivity|].
  destruct (Z.ltb_spec d1 0); [reflexivity|].
  unfold wpe, bind. rewrite standard_normal_draws. cbn. lia.
Qed.

Lemma lookup_layer_dims (ls : list Z) k y :
  tail ls !! k = Some y -> exists x, layer_dims ls !! k = Some (x, y).
Proof.
  intros Hy. unfold layer_dims.
  assert (Hlen : (k < length ls)%nat).
  { apply lookup_lt_Some in Hy. destruct ls; cbn [tail length] in *; lia. }
  destruct (lookup_lt_is_Some_2 ls k Hlen) as [x Hx].
  exists x. apply lookup_zip_with_Some. exists x, y. auto.
Qed.

(** On a constructible layer-size list the constructor returns a network
    that satisfies the shape invariant, with zero velocity buffers. *)
Lemma NeuralNetwork_init_constructible layer_sizes g :
  constructible layer_sizes ->
  wp (NeuralNetwork_init layer_sizes)
     (fun nn _ => shape_inv (map Z.to_nat layer_sizes) nn /\ zero_velocity nn) g.
Proof.
  intros Hgood. unfold NeuralNetwork_init.
  rewrite zip_layer_slices, py_slice_from_1.
  apply wp_bind. eapply wp_mono.
  - apply (wp_comprehension _ (fun '(x, y) w => has_shape w (Z.to_nat y) (Z.to_nat x))
             (fun _ _ => True)); [exact I|].
    intros k [x y] s Hk _.
    destruct (proj1 (Forall_lookup _ _) Hgood _ _ Hk) as [Hx Hy].
    eapply wp_mono; [apply initialize_weights_xavier_shape; assumption|].
    intros w g1 Hw. split; [exact Hw | exact I].
  - intros ws g1 [Hws _]. cbv beta. apply wp_bind. eapply wp_mono.
    + apply (wp_comprehension _ (fun y b => has_shape b (Z.to_nat y) 1)
               (fun _ _ => True)); [exact I|].
      intros k y s Hk _. destruct (lookup_layer_dims _ _ _ Hk) as (x & Hxy).
      destruct (proj1 (Forall_lookup _ _) Hgood _ _ Hxy) as [_ Hy].
      eapply wp_mono; [apply (randn_shape y 1); lia|].
      intros b g2 Hb. split; [exact Hb | exact I].
    + intros bs g2 [Hbs _]. apply wp_ret. split.
      * unfold shape_inv. cbn [weights biases velocity_w velocity_b].
        replace (tail (map Z.to_nat layer_sizes)) with (map Z.to_nat (tail layer_sizes))
          by (destruct layer_sizes; reflexivity).
        split; [|split; [|split]].
        -- apply weight_shapes_of_sizes, Hws.
        -- apply Forall2_fmap_r, Forall2_flip. exact Hbs.
        -- apply zero_buffers_shape.
        -- apply zero_buffers_shape.
      * split; apply zero_buffers_zero.
Qed.

(** When the constructor returns, the list was constructible; and it raises
    nothing but [ValueError] and [ZeroDivisionError]. *)
Lemma NeuralNetwork_init_raises layer_sizes g :
  wpe (NeuralNetwork_init layer_sizes) (fun _ _ => constructible layer_sizes)
      (fun e => e = ValueError \/ e = ZeroDivisionError) g.
Proof.
  unfold NeuralNetwork_init. rewrite zip_layer_slices, py_slice_from_1.
  apply wpe_bind. eapply wpe_mono.
  - apply (wpe_comprehension_all _
             (fun '(n_in, n_out) => (0 < n_in)%Z /\ (0 <= n_out)%Z)).
    intros [x y] s. pose proof (initialize_weights_xavier_cases x y s) as H.
    unfold wpe. destruct (initialize_weights_xavier x y s) as [[w|e] s']; cbn [fst] in H.
    + apply H.
    + destruct H as [[-> _]|[-> _]]; auto.
  - intros ws g1 Hgood. cbv beta. apply wpe_bind. eapply wpe_mono.
    + apply (wpe_comprehension _ (fun _ => True)); [|exact I].
      intros y s _. pose proof (randn_raises y 1 s) as H. unfold wpe in *.
      destruct (randn y 1 s) as [[b|e] s']; [exact I | left; exact H].
    + intros bs g2 _. apply wpe_ret. exact Hgood.
Qed.

(** X5: the constructor returns exactly on the layer-size lists in which
    every layer has a positive input size and a non-negative output size (a
    list of fewer than two sizes has no layer): it then yields a network that
    satisfies the shape invariant with zero velocity buffers.  On every other
    list it raises [ValueError] or [ZeroDivisionError]. *)
Theorem X5_constructor_returns_iff :
  forall (layer_sizes : list Z) (g : RandomState),
    (constructible layer_sizes ->
     exists nn g',
       NeuralNetwork_init layer_sizes g = (Ok nn, g') /\
       shape_inv (map Z.to_nat layer_sizes) nn /\ zero_velocity nn) /\
    (~ constructible layer_sizes ->
     exists e g',
       NeuralNetwork_init layer_sizes g = (Raise e, g') /\
       (e = ValueError \/ e = ZeroDivisionError)).
Proof.
  intros ls g. split.
  - intros Hgood.
    destruct (wp_elim _ _ _ (NeuralNetwork_init_constructible ls g Hgood))
      as (nn & g' & Hrun & Hinv & Hzero).
    exists nn, g'. auto.
  - intros Hbad. pose proof (NeuralNetwork_init_raises ls g) as H. unfold wpe in H.
    destruct (NeuralNetwork_init ls g) as [[nn|e] g']; [contradiction|].
    exists e, g'. auto.
Qed.

Lemma X5_witness :
  (exists nn g',
      NeuralNetwork_init [3; 0]%Z constant_generator = (Ok nn, g') /\
      shape_inv [3; 0]%nat nn /\ zero_velocity nn) /\
  (exists e g',
      NeuralNetwork_init [2; 0; 1]%Z constant_generator = (Raise e, g') /\
      (e = ValueError \/ e = ZeroDivisionError)).
Proof.
  split.
  - apply (proj1 (X5_constructor_returns_iff [3; 0]%Z constant_generator)).
    unfold constructible, layer_dims. cbn. repeat constructor; lia.
  - apply (proj2 (X5_constructor_returns_iff [2; 0; 1]%Z constant_generator)).
    unfold constructible, layer_dims. intros H.
    pose proof (proj1 (Forall_lookup _ _) H 1%nat (0, 1)%Z eq_refl) as [H0 _]. lia.
Defined.

(** ** Further properties of the forward pass *)

Lemma feedforward_wrong_rows sizes nn a :
  shape_inv sizes nn -> (2 <= length sizes)%nat -> shape0 a <> input_size sizes ->
  feedforward a nn = (Raise ValueError, nn).
Proof.
  intros (Hw & Hb & _) Hlen Ha.
  destruct sizes as [|n [|n1 sizes]]; cbn [length] in Hlen; try lia.
  cbn [tail zip zip_with] in Hw, Hb. cbn [input_size hd] in Ha.
  unfold feedforward, bind, gets.
  destruct (weights nn) as [|w ws]; [inversion Hw|].
  destruct (biases nn) as [|b bs]; [inversion Hb|].
  inversion Hw as [|? ? ? ? Hwh _]; subst. destruct Hwh as (Hw0 & Hw1 & _).
  cbn [zip zip_with for_loop]. unfold bind, lift_result. cbn [py_last last].
  unfold np_dot. destruct (decide (shape1 w = shape0 a)) as [Heq|Hne]; [|reflexivity].
  congruence.
Qed.

(** X6: [feedforward] raises nothing but [ValueError]; and on a network with
    at least one layer that satisfies the shape invariant, an input whose
    number of rows is not the input size makes it raise [ValueError], the
    network staying as it was. *)
Theorem X6_feedforward_errors :
  (forall a nn e, fst (feedforward a nn) = Raise e -> e = ValueError) /\
  (forall sizes nn a,
      shape_inv sizes nn -> (2 <= length sizes)%nat -> shape0 a <> input_size sizes ->
      feedforward a nn = (Raise ValueError, nn)).
Proof.
  split.
  - intros a nn e Hraise. pose proof (feedforward_raises a nn) as H. unfold wpe in H.
    destruct (feedforward a nn) as [[out|e'] nn']; cbn [fst] in Hraise; [discriminate|].
    congruence.
  - apply feedforward_wrong_rows.
Qed.

Lemma X6_witness :
  feedforward (column [0; 0; 0]) xor_network = (Raise ValueError, xor_network).
Proof.
  apply (proj2 X6_feedforward_errors [2; 2; 1]%nat xor_network (column [0; 0; 0])).
  - shapes_by_evaluation.
  - cbn. lia.
  - cbn. lia.
Defined.

(** *** A matrix of input columns *)

Lemma broadcast_dim_1_r c : broadcast_dim c 1 = Some c.
Proof.
  unfold broadcast_dim. destruct (decide (c = 1%nat)) as [->|Hne]; [reflexivity|].
  destruct (decide (c = 1%nat)); [contradiction|].
  destruct (decide (1%nat = 1%nat)); congruence.
Qed.

Lemma broadcast_index_1 j : broadcast_index 1 j = 0%nat.
Proof. reflexivity. Qed.

Lemma layer_batch w b prev m n c :
  has_shape w m n -> has_shape b m 1 -> has_shape prev n c ->
  exists wa z,
    np_dot w prev = Ok wa /\ np_add wa b = Ok z /\
    sigmoid_array z = affine_sigmoid_batch w b prev.
Proof.
  intros (Hw0 & Hw1 & _) (Hb0 & Hb1 & _) (Hp0 & Hp1 & _).
  unfold np_dot. destruct (decide (shape1 w = shape0 prev)) as [_|Hne]; [|congruence].
  eexists; eexists. split; [reflexivity|].
  unfold np_add, broadcast2. cbn [from_fn shape0 shape1].
  rewrite Hb0, Hb1, Hw0, Hp1, broadcast_dim_same, broadcast_dim_1_r.
  split; [reflexivity|].
  unfold sigmoid_array, affine_sigmoid_batch. rewrite np_map_from_fn, Hw0, Hp1.
  apply from_fn_ext. intros i j Hi Hj.
  rewrite !broadcast_index_lt by assumption. rewrite broadcast_index_1.
  change (mk_ndarray m c _) with
    (from_fn m c (fun i j => Rsum (map (fun k => item w i k * item prev k j)
                                       (seq 0 (shape1 w))))).
  rewrite item_from_fn by assumption. reflexivity.
Qed.

Lemma affine_sigmoid_batch_shape w b prev :
  has_shape (affine_sigmoid_batch w b prev) (shape0 w) (shape1 prev).
Proof. apply from_fn_has_shape. Qed.

Lemma column_of_shape x j : has_shape (column_of x j) (shape0 x) 1.
Proof. apply from_fn_has_shape. Qed.

Lemma column_of_affine w b prev j :
  shape1 w = shape0 prev -> (j < shape1 prev)%nat ->
  column_of (affine_sigmoid_batch w b prev) j = affine_sigmoid_spec w b (column_of prev j).
Proof.
  intros Hwp Hj. unfold column_of at 1, affine_sigmoid_spec.
  change (shape0 (affine_sigmoid_batch w b prev)) with (shape0 w).
  apply from_fn_ext. intros i j' Hi _.
  unfold affine_sigmoid_batch. rewrite item_from_fn by assumption.
  f_equal. f_equal. f_equal. apply map_ext_in. intros k Hk%in_seq.
  unfold column_of. rewrite item_from_fn by lia. reflexivity.
Qed.

Lemma forward_batch_shape sizes : forall n c ws bs a,
  Forall2 (fun w '(n_in, n_out) => has_shape w n_out n_in) ws (zip (n :: sizes) sizes) ->
  Forall2 (fun b n_out => has_shape b n_out 1) bs sizes ->
  has_shape a n c ->
  has_shape (forward_batch ws bs a) (default n (last sizes)) c.
Proof.
  induction sizes as [|n1 sizes IH]; intros n c ws bs a Hw Hb Ha.
  - inversion Hw; subst. exact Ha.
  - inversion Hw as [|w ? ws' ? Hw1 Hws]; subst. inversion Hb as [|b ? bs' ? Hb1 Hbs]; subst.
    cbn [forward_batch]. rewrite last_cons_default. apply IH; [exact Hws | exact Hbs |].
    destruct Hw1 as (<- & _). destruct Ha as (_ & <- & _). apply affine_sigmoid_batch_shape.
Qed.

Lemma column_of_forward sizes : forall n c ws bs a j,
  Forall2 (fun w '(n_in, n_out) => has_shape w n_out n_in) ws (zip (n :: sizes) sizes) ->
  Forall2 (fun b n_out => has_shape b n_out 1) bs sizes ->
  has_shape a n c -> (j < c)%nat ->
  column_of (forward_batch ws bs a) j = forward_spec ws bs (column_of a j).
Proof.
  induction sizes as [|n1 sizes IH]; intros n c ws bs a j Hw Hb Ha Hj.
  - inversion Hw; subst. reflexivity.
  - inversion Hw as [|w ? ws' ? Hw1 Hws]; subst. inversion Hb as [|b ? bs' ? Hb1 Hbs]; subst.
    cbn [forward_batch forward_spec].
    destruct Hw1 as (Hw0 & Hw1 & _). pose proof Ha as (Ha0 & Ha1 & _).
    rewrite <- (column_of_affine w b a j) by congruence.
    apply (IH n1 c); [exact Hws | exact Hbs | | exact Hj].
    rewrite <- Hw0, <- Ha1. apply affine_sigmoid_batch_shape.
Qed.

Lemma feedforward_batch_loop sizes : forall n c ws bs acts prev (nn : NeuralNetwork),
  Forall2 (fun w '(n_in, n_out) => has_shape w n_out n_in) ws (zip (n :: sizes) sizes) ->
  Forall2 (fun b n_out => has_shape b n_out 1) bs sizes ->
  has_shape prev n c ->
  wp (for_loop (zip bs ws) (acts ++ [prev])
        (fun activations '(b, w) =>
           let* prev := lift_result (py_last activations) in
           let* wa := lift_result (np_dot w prev) in
           let* z := lift_result (np_add wa b) in
           ret (activations ++ [sigmoid_array z])))
     (fun acts' nn' => nn' = nn /\ py_last acts' = Ok (forward_batch ws bs prev)) nn.
Proof.
  induction sizes as [|n1 sizes IH]; intros n c ws bs acts prev nn Hw Hb Hp.
  - inversion Hw; subst. inversion Hb; subst. cbn [zip zip_with for_loop forward_batch].
    apply wp_ret. split; [reflexivity | apply last_snoc_ok].
  - inversion Hw as [|w ? ws' ? Hw1 Hws]; subst. inversion Hb as [|b ? bs' ? Hb1 Hbs]; subst.
    destruct (layer_batch w b prev n1 n c Hw1 Hb1 Hp) as (wa & z & Hdot & Hadd & Hz).
    cbn [zip zip_with for_loop forward_batch]. apply wp_bind.
    apply wp_bind. eapply wp_lift; [apply last_snoc_ok|].
    apply wp_bind. eapply wp_lift; [exact Hdot|].
    apply wp_bind. eapply wp_lift; [exact Hadd|].
    apply wp_ret. rewrite Hz.
    apply (IH n1 c ws' bs' (acts ++ [prev]) (affine_sigmoid_batch w b prev) nn Hws Hbs).
    destruct Hw1 as (<- & _). destruct Hp as (_ & <- & _). apply affine_sigmoid_batch_shape.
Qed.

Lemma feedforward_batch sizes nn a c :
  shape_inv sizes nn -> has_shape a (input_size sizes) c ->
  feedforward a nn = (Ok (forward_batch (weights nn) (biases nn) a), nn).
Proof.
  intros (Hw & Hb & _) Ha.
  assert (H : wp (feedforward a)
                 (fun out nn' => nn' = nn /\ out = forward_batch (weights nn) (biases nn) a) nn).
  { unfold feedforward. apply wp_bind, wp_gets. apply wp_bind, wp_gets.
    apply wp_bind. destruct sizes as [|n sizes].
    - cbn [zip zip_with tail] in Hw, Hb. inversion Hw as [Hw'|]. inversion Hb as [Hb'|].
      cbn [zip zip_with for_loop forward_batch]. apply wp_ret.
      eapply wp_lift; [reflexivity | split; reflexivity].
    - cbn [tail] in Hw, Hb. cbn [input_size hd] in Ha.
      eapply wp_mono; [apply (feedforward_batch_loop sizes n c _ _ [] a nn Hw Hb Ha)|].
      intros acts' nn' [-> Hlast]. eapply wp_lift; [exact Hlast | split; reflexivity]. }
  apply wp_elim in H. destruct H as (out & nn' & Heq & -> & ->). exact Heq.
Qed.

(** X8: [feedforward] accepts a matrix whose [c] columns are inputs: on a
    network that satisfies the shape invariant it returns the matrix of the
    [c] output columns, and column [j] of the result is what [feedforward]
    returns on column [j] alone. *)
Theorem X8_feedforward_columnwise :
  forall sizes nn a c,
    shape_inv sizes nn -> has_shape a (input_size sizes) c ->
    exists out,
      feedforward a nn = (Ok out, nn) /\
      has_shape out (output_size sizes) c /\
      forall j, (j < c)%nat ->
                feedforward (column_of a j) nn = (Ok (column_of out j), nn).
Proof.
  intros sizes nn a c Hinv Ha.
  exists (forward_batch (weights nn) (biases nn) a).
  split; [apply (feedforward_batch sizes nn a c Hinv Ha)|].
  pose proof Hinv as (Hw & Hb & _). pose proof Ha as (Ha0 & _).
  destruct sizes as [|n sizes].
  - cbn [zip zip_with tail] in Hw, Hb. inversion Hw as [Hw'|]. inversion Hb as [Hb'|].
    cbn [forward_batch]. split; [exact Ha|].
    intros j Hj. rewrite (feedforward_refines [] nn (column_of a j) Hinv).
    + rewrite <- Hw', <- Hb'. reflexivity.
    + rewrite <- Ha0. apply column_of_shape.
  - cbn [tail] in Hw, Hb. cbn [input_size hd] in Ha, Ha0. split.
    + unfold output_size. rewrite (last_cons_default 0%nat n sizes).
      apply forward_batch_shape; assumption.
    + intros j Hj. rewrite (feedforward_refines (n :: sizes) nn (column_of a j) Hinv).
      * rewrite (column_of_forward sizes n c) by assumption. reflexivity.
      * cbn [input_size hd]. rewrite <- Ha0. apply column_of_shape.
Qed.

Lemma X8_witness :
  exists out,
    feedforward (mk_ndarray 2 3 [0; 0; 1; 0; 1; 1]) xor_network = (Ok out, xor_network) /\
    has_shape out 1 3 /\
    forall j, (j < 3)%nat ->
              feedforward (column_of (mk_ndarray 2 3 [0; 0; 1; 0; 1; 1]) j) xor_network
              = (Ok (column_of out j), xor_network).
Proof.
  apply (X8_feedforward_columnwise [2; 2; 1]%nat xor_network
           (mk_ndarray 2 3 [0; 0; 1; 0; 1; 1]) 3); shapes_by_evaluation.
Defined.

(** ** Further properties of the cost derivative *)

Lemma broadcast_dim_compatible m n :
  match broadcast_dim m n with
  | Some _ => compatible m n
  | None => ~ compatible m n
  end.
Proof.
  unfold broadcast_dim, compatible.
  destruct (decide (m = n)); [auto|].
  destruct (decide (m = 1%nat)); [auto|].
  destruct (decide (n = 1%nat)); [auto|]. tauto.
Qed.

(** X9: [cost_derivative] follows numpy's broadcasting and never touches the
    network: it returns exactly when the row counts and the column counts of
    its two arguments are each equal or have a 1 among them, and raises
    [ValueError] otherwise; a target of a single element is subtracted from
    every element of the output. *)
Theorem X9_cost_derivative_broadcasting :
  forall (output_activations y : ndarray) (nn : NeuralNetwork),
    (compatible (shape0 output_activations) (shape0 y) /\
     compatible (shape1 output_activations) (shape1 y) ->
     exists d, cost_derivative output_activations y nn = (Ok d, nn)) /\
    (~ (compatible (shape0 output_activations) (shape0 y) /\
        compatible (shape1 output_activations) (shape1 y)) ->
     cost_derivative output_activations y nn = (Raise ValueError, nn)) /\
    (has_shape y 1 1 ->
     exists d,
       cost_derivative output_activations y nn = (Ok d, nn) /\
       shape0 d = shape0 output_activations /\ shape1 d = shape1 output_activations /\
       forall i j, (i < shape0 output_activations)%nat ->
                   (j < shape1 output_activations)%nat ->
                   item d i j = item output_activations i j - item y 0 0).
Proof.
  intros out y nn.
  pose proof (broadcast_dim_compatible (shape0 out) (shape0 y)) as H0.
  pose proof (broadcast_dim_compatible (shape1 out) (shape1 y)) as H1.
  split; [|split].
  - intros [Hc0 Hc1]. unfold cost_derivative, np_subtract, broadcast2, lift_result.
    destruct (broadcast_dim (shape0 out) (shape0 y)); [|contradiction].
    destruct (broadcast_dim (shape1 out) (shape1 y)); [|contradiction].
    eexists. reflexivity.
  - intros Hbad. unfold cost_derivative, np_subtract, broadcast2, lift_result.
    destruct (broadcast_dim (shape0 out) (shape0 y)); [|reflexivity].
    destruct (broadcast_dim (shape1 out) (shape1 y)); [|reflexivity].
    tauto.
  - intros (Hy0 & Hy1 & _). unfold cost_derivative, np_subtract, broadcast2, lift_result.
    rewrite Hy0, Hy1, !broadcast_dim_1_r.
    eexists. split; [reflexivity|]. split; [reflexivity|]. split; [reflexivity|].
    intros i j Hi Hj. rewrite item_from_fn by assumption.
    rewrite !broadcast_index_lt by assumption. reflexivity.
Qed.

Lemma X9_witness :
  (exists d, cost_derivative (column [1 / 2; 1 / 4]) (column [1]) xor_network
             = (Ok d, xor_network)) /\
  cost_derivative (column [1 / 2; 1 / 4]) (column [1; 0; 1]) xor_network
  = (Raise ValueError, xor_network) /\
  (exists d,
      cost_derivative (column [1 / 2; 1 / 4]) (column [1]) xor_network = (Ok d, xor_network) /\
      shape0 d = 2%nat /\ shape1 d = 1%nat /\
      forall i j, (i < 2)%nat -> (j < 1)%nat ->
                  item d i j = item (column [1 / 2; 1 / 4]) i j - item (column [1]) 0 0).
Proof.
  split; [|split].
  - apply (proj1 (X9_cost_derivative_broadcasting (column [1 / 2; 1 / 4]) (column [1])
                    xor_network)).
    unfold compatible. cbn. auto.
  - apply (proj1 (proj2 (X9_cost_derivative_broadcasting (column [1 / 2; 1 / 4])
                           (column [1; 0; 1]) xor_network))).
    unfold compatible. cbn. lia.
  - apply (proj2 (proj2 (X9_cost_derivative_broadcasting (column [1 / 2; 1 / 4]) (column [1])
                           xor_network))).
    shapes_by_evaluation.
Defined.

(** ** Further properties of the training driver *)

Lemma py_range_epochs (epochs : Z) :
  py_range 0 epochs 1 = Ok (map Z.of_nat (seq 0 (Z.to_nat epochs))).
Proof.
  unfold py_range. cbn [Z.eqb]. f_equal.
  replace (Z.to_nat (range_length 0 epochs 1)) with (Z.to_nat epochs).
  - apply map_ext. intros i. lia.
  - unfold range_length. cbn [Z.ltb Z.compare].
    destruct (Z.ltb_spec 0 epochs); [|lia]. rewrite Z.div_1_r. lia.
Qed.

Lemma shuffle_training_data_run_eq (w : world) :
  exists l' g',
    shuffle (training_data w) (np_random w) = (Ok l', g') /\
    shuffle_training_data w = (Ok tt, mk_world (self w) l' g' (stdout w)) /\
    Permutation (training_data w) l'.
Proof.
  destruct (wp_elim _ _ _ (shuffle_Permutation (training_data w) (np_random w)))
    as (l' & g' & Hrun & Hperm).
  exists l', g'. split; [exact Hrun|]. split; [|exact Hperm].
  unfold shuffle_training_data, bind, gets, on_random, zoom, set_training_data, modify.
  rewrite Hrun. reflexivity.
Qed.

(** X10: with no epoch to run ([epochs] zero or negative), [train] returns
    at once and changes nothing at all: the list is not shuffled, nothing is
    printed and the generator is not used, whatever the other arguments,
    a mini-batch size of 0 included. *)
Theorem X10_train_without_epochs :
  forall (epochs mini_batch_size : Z) (learning_rate decay : R) (w : world),
    (epochs <= 0)%Z ->
    train epochs mini_batch_size learning_rate decay w = (Ok tt, w).
Proof.
  intros epochs m lr decay w Hle.
  unfold train, train_loop, bind, gets, lift_result. rewrite py_range_epochs.
  replace (Z.to_nat epochs) with 0%nat by lia. reflexivity.
Qed.

Lemma X10_witness :
  train 0 0 (1 / 10) (9999 / 10000) misshapen_world = (Ok tt, misshapen_world).
Proof. apply (X10_train_without_epochs 0 0 (1 / 10) (9999 / 10000) misshapen_world). lia. Defined.



(** *** The lines that [train] prints *)

Lemma Rsum_Permutation (l l' : list R) : Permutation l l' -> Rsum l = Rsum l'.
Proof.
  unfold Rsum.
  induction 1 as [|x l l' _ IH|x y l|l l' l'' _ IH1 _ IH2]; cbn [fold_right]; lra.
Qed.

Lemma mean_of_Permutation (l l' : list R) : Permutation l l' -> mean_of l = mean_of l'.
Proof.
  intros H. pose proof (Rsum_Permutation _ _ H) as Hs.
  pose proof (Permutation_length H) as Hl.
  destruct l as [|x l]; destruct l' as [|x' l']; try discriminate; [reflexivity|].
  unfold mean_of. rewrite Hs, Hl. reflexivity.
Qed.

Lemma mean_squared_loss_Permutation nn l l' :
  Permutation l l' -> mean_squared_loss nn l = mean_squared_loss nn l'.
Proof.
  intros H. unfold mean_squared_loss. apply mean_of_Permutation.
  apply Permutation_flat_map, H.
Qed.

(** The loss of one example, with its elements. *)
Lemma example_loss_value sizes (w : world) x y :
  shape_inv sizes (self w) ->
  has_shape x (input_size sizes) 1 -> has_shape y (output_size sizes) 1 ->
  wp (let* out := on_self (feedforward x) in
      let* d := on_self (cost_derivative out y) in
      ret (np_map (fun v => v ^ 2) d))
     (fun loss w' => w' = w /\
                     (shape0 loss = output_size sizes /\ shape1 loss = 1%nat) /\
                     flat loss = squared_errors (self w) (x, y)) w.
Proof.
  intros Hinv Hx Hy. destruct w as [nn l g out0]. cbn [self] in *.
  pose proof (feedforward_refines sizes nn x Hinv Hx) as Hff.
  pose proof (forward_spec_output_shape sizes nn x Hinv Hx) as Hout.
  apply wp_bind. unfold on_self at 1. apply wp_zoom. cbn [self].
  eapply wp_intro; [exact Hff|]. cbn [training_data np_random stdout].
  apply wp_bind. unfold on_self. apply wp_zoom. unfold cost_derivative, np_subtract.
  rewrite (broadcast2_same_shape Rminus _ y _ _ Hout Hy).
  eapply wp_lift; [reflexivity|]. apply wp_ret.
  split; [reflexivity|]. split; [split; reflexivity|].
  unfold squared_errors. cbn [np_map flat fst snd]. f_equal.
  destruct Hout as (_ & Ho1 & Hol). destruct Hy as (_ & Hy1 & Hyl).
  unfold item. rewrite Ho1, Hy1.
  apply (from_fn_zip_with Rminus _ _ (output_size sizes) 1); assumption.
Qed.

Lemma np_mean_of_losses nn o (l : list (ndarray * ndarray)) (losses : list ndarray) :
  Forall2 (fun ex loss => (shape0 loss = o /\ shape1 loss = 1%nat) /\
                          flat loss = squared_errors nn ex) l losses ->
  np_mean losses = Ok (mean_squared_loss nn l).
Proof.
  intros HF.
  assert (Hflat : flat_map flat losses = flat_map (squared_errors nn) l).
  { clear -HF. induction HF as [|ex loss l0 losses0 [_ Hloss] _ IH]; [reflexivity|].
    cbn [flat_map]. rewrite Hloss, IH. reflexivity. }
  assert (Hshape : Forall (fun x => shape0 x = o /\ shape1 x = 1%nat) losses).
  { clear -HF. induction HF as [|ex loss l0 losses0 [Hs _] _ IH]; [constructor|].
    constructor; [exact Hs | exact IH]. }
  unfold mean_squared_loss. rewrite <- Hflat. clear Hflat HF.
  destruct losses as [|x xs]; [reflexivity|].
  inversion Hshape as [|? ? [Hx0 Hx1] Hxs]; subst. unfold np_mean.
  assert (Hall : forallb (same_shape x) xs = true).
  { apply forallb_forall. intros y Hy.
    destruct (proj1 (Forall_forall _ _) Hxs y (proj2 (list_elem_of_In _ _) Hy)) as [Hy0 Hy1].
    unfold same_shape. rewrite !bool_decide_eq_true_2 by congruence. reflexivity. }
  rewrite Hall. unfold mean_of. destruct (flat_map flat (x :: xs)); reflexivity.
Qed.

Lemma shuffles_snoc {A} (k : nat) : forall (l l1 l2 : list A) g g1 g2,
  shuffles k l g = (l1, g1) -> shuffle l1 g1 = (Ok l2, g2) ->
  shuffles (S k) l g = (l2, g2).
Proof.
  induction k as [|k IH]; intros l l1 l2 g g1 g2 Hk Hs.
  - cbn in Hk. inversion Hk; subst. cbn [shuffles]. rewrite Hs. reflexivity.
  - cbn [shuffles] in Hk. change (shuffles (S (S k)) l g)
      with (match shuffle l g with
            | (Ok l', g') => shuffles (S k) l' g'
            | (Raise _, g') => (l, g')
            end).
    destruct (wp_elim _ _ _ (shuffle_Permutation l g)) as (l' & g' & Hrun & _).
    rewrite Hrun in *. eapply IH; eassumption.
Qed.

(** One epoch, with what it prints. *)
Lemma epoch_log_wp sizes (w : world) n mini_batch_size decay learning_rate j :
  shape_inv sizes (self w) -> data_fits sizes (training_data w) ->
  mini_batch_size <> 0%Z ->
  wp (epoch n mini_batch_size decay learning_rate j)
     (fun _ w' =>
        self w' = self w /\
        Permutation (training_data w) (training_data w') /\
        stdout w' = stdout w ++
                    (if (j mod 100 =? 0)%Z
                     then [(j, mean_squared_loss (self w) (training_data w))]
                     else []) /\
        shuffle (training_data w) (np_random w) = (Ok (training_data w'), np_random w')) w.
Proof.
  intros Hinv Hfit Hm. unfold epoch.
  destruct (shuffle_training_data_run_eq w) as (l' & g' & Hsh & Hrun & Hperm).
  assert (Hfit' : data_fits sizes l').
  { unfold data_fits in *. eapply Permutation_Forall; eassumption. }
  set (w1 := mk_world (self w) l' g' (stdout w)) in *.
  apply wp_bind. eapply wp_intro; [exact Hrun|].
  apply wp_bind, wp_gets. cbn [training_data w1].
  destruct (mini_batches_of_ok l' n mini_batch_size Hm) as (bs & Hbs).
  apply wp_bind. eapply wp_lift; [exact Hbs|].
  apply wp_bind. eapply wp_mono.
  { apply (wp_for_loop _ (fun _ _ s => s = w1)); [reflexivity|].
    intros k mb [] s _ ->. reflexivity. }
  intros [] s ->. cbv beta.
  apply wp_bind.
  destruct (j mod 100 =? 0)%Z.
  - apply wp_bind, wp_gets. apply wp_bind. eapply wp_mono.
    + apply (wp_comprehension _
               (fun ex loss => (shape0 loss = output_size sizes /\ shape1 loss = 1%nat) /\
                               flat loss = squared_errors (self w) ex)
               (fun _ s => s = w1)); [reflexivity|].
      intros k [x y] s Hk ->.
      pose proof (proj1 (Forall_lookup _ _) Hfit' _ _ Hk) as [Hx Hy].
      eapply wp_mono; [apply (example_loss_value sizes w1 x y Hinv Hx Hy)|].
      intros loss s' (-> & Hs & Hv). auto.
    + intros losses s [HF ->]. cbv beta.
      apply wp_bind. eapply wp_lift; [apply (np_mean_of_losses _ _ _ _ HF)|].
      unfold print, modify, wp. cbn [self training_data stdout w1].
      apply wp_ret. split; [reflexivity|]. split; [exact Hperm|].
      split; [|exact Hsh].
      rewrite (mean_squared_loss_Permutation _ _ _ Hperm). reflexivity.
  - apply wp_ret. apply wp_ret. cbn [self training_data stdout w1].
    split; [reflexivity|]. split; [exact Hperm|].
    split; [|exact Hsh]. rewrite app_nil_r. reflexivity.
Qed.

Lemma filter_logged_snoc (js : list Z) (j : Z) :
  filter (fun j => (j mod 100 = 0)%Z) (js ++ [j])
  = filter (fun j => (j mod 100 = 0)%Z) js ++ (if (j mod 100 =? 0)%Z then [j] else []).
Proof.
  rewrite filter_app. f_equal. cbn [filter list_filter].
  destruct (Z.eqb_spec (j mod 100) 0) as [He|He];
    destruct (decide (j mod 100 = 0)%Z); try contradiction; reflexivity.
Qed.

(** The whole loop, with what it prints. *)
Lemma train_log_wp sizes (w : world) epochs mini_batch_size learning_rate decay :
  shape_inv sizes (self w) -> data_fits sizes (training_data w) ->
  mini_batch_size <> 0%Z ->
  wp (train epochs mini_batch_size learning_rate decay)
     (fun _ w' =>
        self w' = self w /\
        Permutation (training_data w) (training_data w') /\
        stdout w' = stdout w ++
                    map (fun j => (j, mean_squared_loss (self w) (training_data w)))
                        (logged_epochs epochs) /\
        shuffles (Z.to_nat epochs) (training_data w) (np_random w)
        = (training_data w', np_random w')) w.
Proof.
  intros Hinv Hfit Hm. unfold train, train_loop.
  apply wp_bind. apply wp_bind, wp_gets.
  apply wp_bind. eapply wp_lift; [apply py_range_epochs|].
  set (js := map Z.of_nat (seq 0 (Z.to_nat epochs))).
  set (L := mean_squared_loss (self w) (training_data w)).
  eapply wp_mono.
  - apply (wp_for_loop _
             (fun k _ w' =>
                self w' = self w /\
                Permutation (training_data w) (training_data w') /\
                stdout w' = stdout w ++
                            map (fun j => (j, L))
                                (filter (fun j => (j mod 100 = 0)%Z) (take k js)) /\
                shuffles k (training_data w) (np_random w)
                = (training_data w', np_random w'))).
    + split; [reflexivity|]. split; [reflexivity|].
      split; [|reflexivity]. cbn. rewrite app_nil_r. reflexivity.
    + intros k j lr s Hk (Hself & Hperm & Hout & Hsh).
      eapply wp_mono.
      * apply (epoch_log_wp sizes s); [rewrite Hself; exact Hinv | | exact Hm].
        unfold data_fits in *. eapply Permutation_Forall; eassumption.
      * intros lr' s' (Hself' & Hperm' & Hout' & Hsh').
        split; [congruence|]. split; [eapply perm_trans; eassumption|].
        split; [|apply (shuffles_snoc _ _ _ _ _ _ _ Hsh Hsh')].
        rewrite Hout', Hout, (take_S_r _ _ _ Hk), filter_logged_snoc, map_app, <- app_assoc.
        f_equal. f_equal. rewrite Hself.
        rewrite <- (mean_squared_loss_Permutation _ _ _ Hperm). fold L.
        destruct (j mod 100 =? 0)%Z; reflexivity.
  - intros lr w' (Hself & Hperm & Hout & Hsh). apply wp_ret.
    split; [exact Hself|]. split; [exact Hperm|].
    split; [rewrite Hout, firstn_all; reflexivity|].
    subst js. rewrite length_map, length_seq in Hsh. exact Hsh.
Qed.

Lemma nat_mod_of_Z (n : nat) : (Z.of_nat n mod 100 = 0)%Z <-> (n mod 100 = 0)%nat.
Proof. change 100%Z with (Z.of_nat 100). rewrite <- Nat2Z.inj_mod. lia. Qed.

Lemma hundreds_step_multiple (n : nat) :
  (Z.of_nat n mod 100 = 0)%Z ->
  ((S n + 99) / 100 = S ((n + 99) / 100))%nat /\
  (100 * Z.of_nat ((n + 99) / 100) = Z.of_nat n)%Z.
Proof.
  intros H%nat_mod_of_Z. pose proof (Nat.div_mod_eq n 100) as E.
  set (q := (n / 100)%nat) in *.
  assert (Hn : n = (100 * q)%nat) by lia.
  replace (S n + 99)%nat with ((q + 1) * 100)%nat by lia.
  replace (n + 99)%nat with (99 + q * 100)%nat by lia.
  rewrite Nat.div_mul by lia. rewrite Nat.div_add by lia.
  rewrite (Nat.div_small 99 100) by lia. lia.
Qed.

Lemma hundreds_step_other (n : nat) :
  (Z.of_nat n mod 100 <> 0)%Z -> ((S n + 99) / 100 = (n + 99) / 100)%nat.
Proof.
  intros H.
  assert (Hn : (n mod 100 <> 0)%nat) by (intros Hn%nat_mod_of_Z; contradiction).
  pose proof (Nat.div_mod_eq n 100) as E.
  pose proof (Nat.mod_upper_bound n 100 ltac:(lia)) as Hr.
  set (q := (n / 100)%nat) in *. set (r := (n mod 100)%nat) in *.
  transitivity (q + 1)%nat.
  - symmetry. apply (Nat.div_unique _ _ _ r); lia.
  - apply (Nat.div_unique _ _ _ (r - 1)); lia.
Qed.

Lemma hundreds_count (epochs : Z) :
  Z.to_nat ((epochs + 99) / 100) = ((Z.to_nat epochs + 99) / 100)%nat.
Proof.
  destruct (Z.le_gt_cases 0 epochs).
  - rewrite <- (Z2Nat.id epochs) at 1 by lia.
    change 99%Z with (Z.of_nat 99). change 100%Z with (Z.of_nat 100).
    rewrite <- Nat2Z.inj_add, <- Nat2Z.inj_div, Nat2Z.id. reflexivity.
  - replace (Z.to_nat epochs) with 0%nat by lia.
    rewrite (Nat.div_small (0 + 99) 100) by lia.
    assert ((epochs + 99) / 100 < 1)%Z by (apply Z.div_lt_upper_bound; lia). lia.
Qed.

(** The logged epochs are the multiples of 100 below [epochs]. *)
Lemma logged_epochs_multiples (epochs : Z) :
  logged_epochs epochs
  = map (fun k => (100 * Z.of_nat k)%Z) (seq 0 (Z.to_nat ((epochs + 99) / 100))).
Proof.
  unfold logged_epochs. rewrite hundreds_count.
  induction (Z.to_nat epochs) as [|n IH]; [reflexivity|].
  rewrite seq_S, map_app, Nat.add_0_l. cbn [map]. rewrite filter_logged_snoc, IH.
  destruct (Z.eqb_spec (Z.of_nat n mod 100) 0) as [He|He].
  - destruct (hundreds_step_multiple n He) as [Hs Hv].
    rewrite Hs, seq_S, map_app, Nat.add_0_l. cbn [map]. rewrite Hv. reflexivity.
  - rewrite (hundreds_step_other n He), app_nil_r. reflexivity.
Qed.

(** X12: when [train] returns (a network that satisfies the shape invariant,
    well-shaped data, a non-zero mini-batch size), it has printed one line
    for each epoch number that is a multiple of 100, that is for 0, 100, 200
    and so on below [epochs], in this order and after the lines that were
    there. *)
Theorem X12_train_logs_every_hundredth_epoch :
  forall sizes epochs mini_batch_size learning_rate decay (w : world),
    shape_inv sizes (self w) -> data_fits sizes (training_data w) ->
    mini_batch_size <> 0%Z ->
    exists w',
      train epochs mini_batch_size learning_rate decay w = (Ok tt, w') /\
      map fst (stdout w')
      = map fst (stdout w)
        ++ map (fun k => (100 * Z.of_nat k)%Z) (seq 0 (Z.to_nat ((epochs + 99) / 100))).
Proof.
  intros sizes epochs m lr decay w Hinv Hfit Hm.
  destruct (wp_elim _ _ _ (train_log_wp sizes w epochs m lr decay Hinv Hfit Hm))
    as ([] & w' & Hrun & _ & _ & Hout & _).
  exists w'. split; [exact Hrun|].
  rewrite Hout, map_app, map_map. cbn [fst]. rewrite map_id.
  rewrite logged_epochs_multiples. reflexivity.
Qed.

Lemma X12_witness :
  exists w',
    train 250 4 (1 / 10) (9999 / 10000) xor_world = (Ok tt, w') /\
    map fst (stdout w') = [0; 100; 200]%Z.
Proof.
  apply (X12_train_logs_every_hundredth_epoch [2; 2; 1]%nat 250 4 (1 / 10) (9999 / 10000)
           xor_world).
  - shapes_by_evaluation.
  - shapes_by_evaluation.
  - lia.
Defined.

(** X13: in real arithmetic every loss that [train] prints is the same
    value, the mean of the squared differences between the outputs of the
    network as it was before the call and the targets, over all examples of
    the list: training does not move the loss. *)
Theorem X13_train_logs_constant_loss :
  forall sizes epochs mini_batch_size learning_rate decay (w : world),
    shape_inv sizes (self w) -> data_fits sizes (training_data w) ->
    mini_batch_size <> 0%Z ->
    exists w',
      train epochs mini_batch_size learning_rate decay w = (Ok tt, w') /\
      stdout w'
      = stdout w
        ++ map (fun k => ((100 * Z.of_nat k)%Z, mean_squared_loss (self w) (training_data w)))
               (seq 0 (Z.to_nat ((epochs + 99) / 100))).
Proof.
  intros sizes epochs m lr decay w Hinv Hfit Hm.
  destruct (wp_elim _ _ _ (train_log_wp sizes w epochs m lr decay Hinv Hfit Hm))
    as ([] & w' & Hrun & _ & _ & Hout & _).
  exists w'. split; [exact Hrun|].
  rewrite Hout, logged_epochs_multiples, map_map. reflexivity.
Qed.

Lemma X13_witness :
  exists w',
    train 250 4 (1 / 10) (9999 / 10000) xor_world = (Ok tt, w') /\
    stdout w'
    = [ (0%Z, mean_squared_loss xor_network xor_data);
        (100%Z, mean_squared_loss xor_network xor_data);
        (200%Z, mean_squared_loss xor_network xor_data) ].
Proof.
  apply (X13_train_logs_constant_loss [2; 2; 1]%nat 250 4 (1 / 10) (9999 / 10000) xor_world).
  - shapes_by_evaluation.
  - shapes_by_evaluation.
  - lia.
Defined.

(** ** The driver [main] *)

(** The loop of [main] that reports the outputs, on a network that satisfies
    the shape invariant and a list of well-shaped examples. *)
Lemma main_report_loop sizes nn :
  shape_inv sizes nn ->
  forall (l : list (ndarray * ndarray)) (p : process),
    data_fits sizes l ->
    for_loop l nn
      (fun nn '(x, y) =>
         let* (out, nn) := call_method (feedforward x) nn in
         print_line (InputOutputTarget (flat x) (flat out) (flat y)) >>
         ret nn) p
    = (Ok nn,
       mk_process (generator p)
         (lines p ++ map (fun '(x, y) =>
                            InputOutputTarget
                              (flat x)
                              (flat (forward_spec (weights nn) (biases nn) x))
                              (flat y)) l)).
Proof.
  intros Hinv l. induction l as [|[x y] l IH]; intros p Hfit.
  - cbn. rewrite app_nil_r. destruct p; reflexivity.
  - unfold data_fits in Hfit. apply Forall_cons in Hfit. destruct Hfit as [Hxy Hfit'].
    destruct Hxy as [Hx Hy].
    cbn [for_loop]. unfold bind at 1. unfold bind at 1. unfold call_method.
    rewrite (feedforward_refines sizes nn x Hinv Hx).
    unfold bind, print_line, modify, ret. rewrite (IH _ Hfit').
    cbn [generator lines map]. rewrite <- app_assoc. reflexivity.
Qed.

(** X14: from every state of the random generator, [main] returns normally.
    It prints the 200 loss lines of epochs 0, 100, ..., 19900, all with the
    loss of the freshly constructed network, and then one line for each row
    of the XOR table, in the order the last shuffle left, whose output is the
    output of the freshly constructed network on that row: the training run
    has not changed what the network computes. *)
Theorem X14_main_reports_untrained_network :
  forall p : process,
    exists nn g1 l' g2,
      NeuralNetwork_init [2; 2; 1]%Z (generator p) = (Ok nn, g1) /\
      Permutation xor_data l' /\
      main p
      = (Ok tt,
         mk_process g2
           (lines p
            ++ map (fun k => EpochLoss (100 * Z.of_nat k)%Z (mean_squared_loss nn xor_data))
                   (seq 0 200)
            ++ map (fun '(x, y) =>
                      InputOutputTarget
                        (flat x)
                        (flat (forward_spec (weights nn) (biases nn) x))
                        (flat y)) l')).
Proof.
  intros p.
  assert (Hgood : positive_sizes [2; 2; 1]%Z) by shapes_by_evaluation.
  destruct (wp_elim _ _ _ (NeuralNetwork_init_establishes [2; 2; 1]%Z (generator p) Hgood))
    as (nn & g1 & Hinit & Hinv & _).
  change (map Z.to_nat [2; 2; 1]%Z) with [2; 2; 1]%nat in Hinv.
  destruct (wp_elim _ _ _ (train_log_wp [2; 2; 1]%nat (mk_world nn xor_data g1 [])
                             20000 4 (1 / 10) (9999 / 10000) Hinv xor_data_fits ltac:(lia)))
    as ([] & w' & Htrain & Hself & Hperm & Hout & _).
  cbn [self training_data stdout] in Hself, Hperm, Hout.
  exists nn, g1, (training_data w'), (np_random w').
  split; [exact Hinit|]. split; [exact Hperm|].
  assert (Hfit : data_fits [2; 2; 1]%nat (training_data w')).
  { unfold data_fits. eapply Permutation_Forall; [exact Hperm | exact xor_data_fits]. }
  unfold main. unfold bind at 1. unfold zoom. rewrite Hinit. cbn [generator lines].
  unfold bind at 1. unfold call_train. cbn [generator lines]. rewrite Htrain, Hself.
  unfold bind. rewrite (main_report_loop [2; 2; 1]%nat nn Hinv _ _ Hfit).
  cbn [generator lines]. unfold ret. f_equal. f_equal.
  rewrite <- app_assoc. f_equal. f_equal.
  rewrite Hout, logged_epochs_multiples. cbn [app]. rewrite map_map. reflexivity.
Qed.

(** ** The training driver on a list that does not fit the network *)

#[local] Instance same_world_preorder : PreOrder same_world.
Proof.
  split.
  - intros w. repeat split.
  - intros w1 w2 w3 (A1 & B1 & C1 & D1) (A2 & B2 & C2 & D2).
    repeat split; congruence.
Qed.

(** The computation of the loss of one example returns or raises
    [ValueError], leaves the world as it was, and returns only if
    [feedforward] does. *)
Lemma example_loss_outcome (x y : ndarray) (s : world) :
  match (let* out := on_self (feedforward x) in
         let* d := on_self (cost_derivative out y) in
         ret (np_map (fun v => v ^ 2) d)) s with
  | (Ok _, s') => same_world s s' /\ exists out, feedforward x (self s) = (Ok out, self s)
  | (Raise e, s') => same_world s s' /\ e = ValueError
  end.
Proof.
  unfold bind, on_self, zoom, cost_derivative, lift_result, ret.
  pose proof (feedforward_keeps x (self s)) as Hk.
  pose proof (feedforward_raises x (self s)) as Hr. unfold wpe in Hr.
  destruct (feedforward x (self s)) as [[out|e] nn']; cbn [snd] in Hk; subst nn'.
  - cbn [self training_data np_random stdout].
    pose proof (broadcast2_raises Rminus out y) as Hs. unfold np_subtract.
    destruct (broadcast2 Rminus out y) as [d|e].
    + split; [repeat split | eexists; reflexivity].
    + split; [repeat split | exact Hs].
  - split; [repeat split | exact Hr].
Qed.

Lemma loss_comprehension_fails sizes (l : list (ndarray * ndarray)) :
  (2 <= length sizes)%nat ->
  forall s : world,
    shape_inv sizes (self s) ->
    (exists x y, In (x, y) l /\ shape0 x <> input_size sizes) ->
    exists s',
      comprehension
        (fun '(x, y) =>
           let* out := on_self (feedforward x) in
           let* d := on_self (cost_derivative out y) in
           ret (np_map (fun v => v ^ 2) d)) l s
      = (Raise ValueError, s') /\ same_world s s'.
Proof.
  intros Hlen. induction l as [|[x0 y0] l IH]; intros s Hinv (x & y & Hin & Hbad).
  - destruct Hin.
  - cbn [comprehension]. unfold bind at 1.
    pose proof (example_loss_outcome x0 y0 s) as Hout.
    destruct ((let* out := on_self (feedforward x0) in
               let* d := on_self (cost_derivative out y0) in
               ret (np_map (fun v => v ^ 2) d)) s) as [[loss|e] s1].
    + destruct Hout as [Hsame (out & Hff)].
      destruct Hin as [Heq|Hin].
      * inversion Heq; subst x0 y0.
        rewrite (feedforward_wrong_rows sizes (self s) x Hinv Hlen Hbad) in Hff.
        discriminate.
      * assert (Hinv1 : shape_inv sizes (self s1)).
        { destruct Hsame as (-> & _). exact Hinv. }
        destruct (IH s1 Hinv1 (ex_intro _ x (ex_intro _ y (conj Hin Hbad))))
          as (s' & Hrun & Hsame').
        exists s'. unfold bind at 1. rewrite Hrun. split; [reflexivity|].
        etransitivity; eassumption.
    + destruct Hout as [Hsame ->]. exists s1. split; [reflexivity | exact Hsame].
Qed.

Lemma gradient_descent_loop_run (bs : list (list (ndarray * ndarray))) eta mu nn l g out :
  for_loop bs tt (fun _ mini_batch => on_self (gradient_descent mini_batch eta mu))
           (mk_world nn l g out)
  = (Ok tt, mk_world nn l g out).
Proof.
  induction bs as [|b bs IH]; [reflexivity|].
  cbn [for_loop]. unfold bind. unfold on_self at 1, zoom, gradient_descent at 1, ret.
  cbn [self training_data np_random stdout]. exact IH.
Qed.

Lemma bind_ok_eq {S A B} (m : M S A) (k : A -> M S B) s a s' r :
  m s = (Ok a, s') -> k a s' = r -> bind m k s = r.
Proof. intros Hm Hk. unfold bind. rewrite Hm. exact Hk. Qed.

Lemma bind_raise_eq {S A B} (m : M S A) (k : A -> M S B) s e s' :
  m s = (Raise e, s') -> bind m k s = (Raise e, s').
Proof. intros Hm. unfold bind. rewrite Hm. reflexivity. Qed.

(** X15: on a network with at least one layer that satisfies the shape
    invariant, a list that holds an example whose input has not the number
    of rows the network takes makes [train] (at least one epoch, a non-zero
    mini-batch size) raise [ValueError] when it computes the loss of epoch 0:
    the list has been shuffled once by then, the network is as it was and
    nothing has been printed. *)
Theorem X15_train_misshapen_example :
  forall sizes epochs mini_batch_size learning_rate decay (w : world),
    shape_inv sizes (self w) -> (2 <= length sizes)%nat ->
    (exists x y, In (x, y) (training_data w) /\ shape0 x <> input_size sizes) ->
    (1 <= epochs)%Z -> mini_batch_size <> 0%Z ->
    exists w',
      train epochs mini_batch_size learning_rate decay w = (Raise ValueError, w') /\
      shuffle (training_data w) (np_random w) = (Ok (training_data w'), np_random w') /\
      self w' = self w /\ stdout w' = stdout w.
Proof.
  intros sizes epochs m lr decay w Hinv Hlen (x & y & Hin & Hbad) Hge Hm.
  destruct (shuffle_training_data_run_eq w) as (l' & g' & Hsh & Hrun & Hperm).
  destruct (mini_batches_of_ok l' (Z.of_nat (length (training_data w))) m Hm) as (bs & Hbs).
  assert (Hin' : exists x y, In (x, y) l' /\ shape0 x <> input_size sizes).
  { exists x, y. split; [|exact Hbad]. eapply Permutation_in; eassumption. }
  destruct (loss_comprehension_fails sizes l' Hlen (mk_world (self w) l' g' (stdout w))
              Hinv Hin') as (w' & Hfail & Hself & Hdata & Hrng & Hout).
  cbn [self training_data np_random stdout] in Hself, Hdata, Hrng, Hout.
  exists w'. split; [|rewrite Hdata, Hrng; auto].
  unfold train. apply bind_raise_eq. unfold train_loop.
  eapply bind_ok_eq; [reflexivity|].
  eapply bind_ok_eq; [unfold lift_result; rewrite py_range_epochs; reflexivity|].
  destruct (Z.to_nat epochs) as [|k] eqn:Hk; [lia|].
  cbn [seq map for_loop]. apply bind_raise_eq. unfold epoch.
  eapply bind_ok_eq; [exact Hrun|].
  eapply bind_ok_eq; [reflexivity|]. cbn [training_data].
  eapply bind_ok_eq; [unfold lift_result; rewrite Hbs; reflexivity|].
  eapply bind_ok_eq; [apply gradient_descent_loop_run|].
  apply bind_raise_eq. change (Z.of_nat 0 mod 100 =? 0)%Z with true. cbv iota.
  eapply bind_ok_eq; [reflexivity|]. cbn [training_data].
  apply bind_raise_eq. exact Hfail.
Qed.

Lemma X15_witness :
  exists w',
    train 3 1 (1 / 10) (9999 / 10000) misshapen_world = (Raise ValueError, w') /\
    shuffle (training_data misshapen_world) (np_random misshapen_world)
    = (Ok (training_data w'), np_random w') /\
    self w' = xor_network /\ stdout w' = [].
Proof.
  apply (X15_train_misshapen_example [2; 2; 1]%nat 3 1 (1 / 10) (9999 / 10000)
           misshapen_world).
  - shapes_by_evaluation.
  - cbn. lia.
  - exists (column [0; 0; 0]), (column [0]). split; [left; reflexivity | cbn; lia].
  - lia.
  - lia.
Defined.

(** ** The list and the generator after [train] *)

(** X16: when [train] returns (a network that satisfies the shape invariant,
    well-shaped data, a non-zero mini-batch size), the caller's list and the
    random generator are what [epochs] calls of [np.random.shuffle] in a row
    leave: each epoch shuffles the list as the epoch before left it, and
    [train] uses the generator for nothing else. *)
Theorem X16_train_shuffles_once_per_epoch :
  forall sizes epochs mini_batch_size learning_rate decay (w : world),
    shape_inv sizes (self w) -> data_fits sizes (training_data w) ->
    mini_batch_size <> 0%Z ->
    exists w',
      train epochs mini_batch_size learning_rate decay w = (Ok tt, w') /\
      (training_data w', np_random w')
      = shuffles (Z.to_nat epochs) (training_data w) (np_random w).
Proof.
  intros sizes epochs m lr decay w Hinv Hfit Hm.
  destruct (wp_elim _ _ _ (train_log_wp sizes w epochs m lr decay Hinv Hfit Hm))
    as ([] & w' & Hrun & _ & _ & _ & Hsh).
  exists w'. split; [exact Hrun | symmetry; exact Hsh].
Qed.

Lemma X16_witness :
  exists w',
    train 2 4 (1 / 10) (9999 / 10000) xor_world = (Ok tt, w') /\
    (training_data w', np_random w')
    = shuffles 2 xor_data (np_random xor_world).
Proof.
  apply (X16_train_shuffles_once_per_epoch [2; 2; 1]%nat 2 4 (1 / 10) (9999 / 10000)
           xor_world).
  - shapes_by_evaluation.
  - shapes_by_evaluation.
  - lia.
Defined.

(** ** The calls of [gradient_descent] *)












